(** * Self-healing locator resolution: a shallow embedding

    The development follows [self_healing_testing.py]: string helpers that
    stand for the Python [str] methods the program calls, the page driver
    as a record of queries, the golden snapshot as a record of optional
    fields, the heuristic scorer and the feature extractor, the selector
    synthesizer, the healing round with its in-place corpus and its
    pickled files, and the agent on top.

    Text is modelled as strings of ASCII characters.  The classifier is a
    black box: a type of models, a [fit] that returns a model or raises,
    and a row-wise class-1 probability.  The diagnostic [print] calls
    have no effect on what the program returns or stores and are left
    out. *)

From Stdlib Require Import ZArith QArith Ascii String List Lia Bool.
From stdpp Require Import base option gmap strings list fin_maps.

Local Open Scope string_scope.
Local Open Scope list_scope.
Local Open Scope Z_scope.

(** ** Python [str] methods used by the program *)

Module PyStr.

(** [str.isspace] on one ASCII character: TAB, LF, VT, FF, CR, the four
    separators FS GS RS US, and the space. *)
Definition is_space (c : ascii) : bool :=
  let n := nat_of_ascii c in
  ((9 <=? n)%nat && (n <=? 13)%nat) || ((28 <=? n)%nat && (n <=? 32)%nat).

Definition lower_char (c : ascii) : ascii :=
  let n := nat_of_ascii c in
  if ((65 <=? n)%nat && (n <=? 90)%nat)%bool then ascii_of_nat (n + 32) else c.

(** [s.lower()] *)
Fixpoint lower (s : string) : string :=
  match s with
  | EmptyString => EmptyString
  | String c s' => String (lower_char c) (lower s')
  end.

Fixpoint lstrip (s : string) : string :=
  match s with
  | EmptyString => EmptyString
  | String c s' => if is_space c then lstrip s' else s
  end.

Fixpoint rstrip (s : string) : string :=
  match s with
  | EmptyString => EmptyString
  | String c s' =>
      match rstrip s' with
      | EmptyString => if is_space c then EmptyString else String c EmptyString
      | r => String c r
      end
  end.

(** [s.strip()] *)
Definition strip (s : string) : string := rstrip (lstrip s).

(** [needle in hay] *)
Fixpoint contains (needle hay : string) : bool :=
  String.prefix needle hay ||
  match hay with
  | EmptyString => false
  | String _ hay' => contains needle hay'
  end.

(** [s.replace(old, new)] for a pattern [old] of one character. *)
Fixpoint replace (old : ascii) (new : string) (s : string) : string :=
  match s with
  | EmptyString => EmptyString
  | String c s' =>
      if Ascii.eqb c old then new +:+ replace old new s'
      else String c (replace old new s')
  end.

(** [s.split()]: the maximal runs of characters that are not whitespace.
    [cur] is the run being read, in reverse. *)
Fixpoint split_go (cur : list ascii) (s : string) : list string :=
  let flush := match cur with
               | [] => []
               | _ => [string_of_list_ascii (rev cur)]
               end in
  match s with
  | EmptyString => flush
  | String c s' =>
      if is_space c then flush ++ split_go [] s' else split_go (c :: cur) s'
  end.

Definition split (s : string) : list string := split_go [] s.

(** [sep.join(parts)] *)
Fixpoint join (sep : string) (parts : list string) : string :=
  match parts with
  | [] => ""
  | [p] => p
  | p :: rest => p +:+ sep +:+ join sep rest
  end.

(** Truth value of a string: non-empty. *)
Definition truthy (s : string) : bool := negb (String.eqb s "").

(** Truth value of [str | None]. *)
Definition truthy_opt (o : option string) : bool :=
  match o with
  | Some s => truthy s
  | None => false
  end.

(** [a or b] on [str | None]. *)
Definition or_else (a b : option string) : option string :=
  if truthy_opt a then a else b.

(** [a == b] on [str | None]. *)
Definition eqb_opt (a b : option string) : bool :=
  match a, b with
  | None, None => true
  | Some x, Some y => String.eqb x y
  | _, _ => false
  end.

End PyStr.

(** ** Exceptions and results *)

Inductive exn : Type :=
| NoSuchElementException
| InvalidSelectorException
| AttributeError
| KeyError (key : string)
| IndexError
| ValueError
| Exception (msg : string).

Inductive result (A : Type) : Type :=
| Ok (a : A)
| Raise (e : exn).
Arguments Ok {A} a.
Arguments Raise {A} e.

#[global] Instance result_ret : MRet result := fun _ a => Ok a.
#[global] Instance result_bind : MBind result := fun _ _ k r =>
  match r with
  | Ok a => k a
  | Raise e => Raise e
  end.

Fixpoint mapM {A B} (f : A → result B) (l : list A) : result (list B) :=
  match l with
  | [] => Ok []
  | x :: l' =>
      match f x with
      | Raise e => Raise e
      | Ok y => match mapM f l' with
                | Raise e => Raise e
                | Ok ys => Ok (y :: ys)
                end
      end
  end.

(** ** The page driver and its elements *)

(** A live element: its tag, its attributes and DOM properties as
    [get_attribute] reads them, its visible text, and its parent element
    ([None] where the query [".."] finds no element). *)
#[warnings="-register-all"]
Inductive WebElement : Type := mkWebElement {
  tag_name : string;
  attributes : gmap string string;
  text : string;
  parent : option WebElement
}.

Definition get_attribute (e : WebElement) (name : string) : option string :=
  attributes e !! name.

(** The driver at the time of a call: the page title, the single-element
    query by XPath and the all-elements query by tag name. *)
Record WebDriver : Type := mkWebDriver {
  title : string;
  find_element : string → result WebElement;
  find_elements : string → list WebElement
}.

(** ** Golden snapshots *)

Record GoldenParent : Type := mkGoldenParent {
  gp_tag : string;
  gp_id : option string;
  gp_class : option string;
  gp_name : option string;
  gp_testid : option string
}.

(** The dictionary built by [capture_element_attributes]; [golden.get(k)]
    is the field, [None] for a missing key or a null value. *)
Record Golden : Type := mkGolden {
  g_tag : string;
  g_id : option string;
  g_class : option string;
  g_name : option string;
  g_testid : option string;
  g_text : option string;
  g_innerHTML : option string;
  g_parent : option GoldenParent
}.

Import PyStr.

Definition capture_element_attributes (element : WebElement) : result Golden :=
  match
    (if String.eqb (lower (tag_name element)) "div" then
       match get_attribute element "innerHTML" with
       | Some h => Ok (Some (strip h))
       | None => Raise AttributeError
       end
     else Ok None)
  with
  | Raise e => Raise e
  | Ok inner =>
      Ok {| g_tag := tag_name element;
            g_id := get_attribute element "id";
            g_class := get_attribute element "class";
            g_name := get_attribute element "name";
            g_testid := get_attribute element "data-testid";
            g_text := Some (strip (text element));
            g_innerHTML := inner;
            g_parent :=
              match parent element with
              | Some p =>
                  Some {| gp_tag := tag_name p;
                          gp_id := get_attribute p "id";
                          gp_class := get_attribute p "class";
                          gp_name := get_attribute p "name";
                          gp_testid := get_attribute p "data-testid" |}
              | None => None
              end |}
  end.

(** ** Heuristic scorer *)

Definition text_contained (golden : Golden) (candidate_text : string) : bool :=
  truthy candidate_text && truthy_opt (g_text golden) &&
  match g_text golden with
  | Some t => contains t candidate_text
  | None => false
  end.

Definition innerHTML_contained (golden : Golden) (candidate_innerHTML : string) : bool :=
  truthy candidate_innerHTML &&
  match g_innerHTML golden with
  | Some h => contains h candidate_innerHTML
  | None => false
  end.

Definition compute_similarity (golden : Golden) (candidate : WebElement) : result Z :=
  let score := 0 in
  if negb (String.eqb (lower (tag_name candidate)) (lower (g_tag golden))) then Ok 0 else
  let score := if eqb_opt (get_attribute candidate "id") (g_id golden)
               then score + 10 else score in
  let score := if eqb_opt (get_attribute candidate "name") (g_name golden)
               then score + 10 else score in
  let score := if eqb_opt (get_attribute candidate "data-testid") (g_testid golden)
               then score + 8 else score in
  let score := if eqb_opt (get_attribute candidate "class") (g_class golden)
               then score + 5 else score in
  let candidate_text := strip (text candidate) in
  let score := if text_contained golden candidate_text then score + 3 else score in
  match
    (if truthy_opt (g_innerHTML golden) then
       match get_attribute candidate "innerHTML" with
       | None => Raise AttributeError
       | Some h =>
           let candidate_innerHTML := strip h in
           Ok (if innerHTML_contained golden candidate_innerHTML
               then score + 2 else score)
       end
     else Ok score)
  with
  | Raise e => Raise e
  | Ok score =>
      let score :=
        match parent candidate with
        | None => score
        | Some candidate_parent =>
            match g_parent golden with
            | None => score
            | Some golden_parent =>
                let score :=
                  if String.eqb (lower (tag_name candidate_parent))
                                (lower (gp_tag golden_parent))
                  then score + 2 else score in
                let score :=
                  if eqb_opt (get_attribute candidate_parent "id") (gp_id golden_parent)
                  then score + 5 else score in
                let score :=
                  if eqb_opt (get_attribute candidate_parent "class")
                             (gp_class golden_parent)
                  then score + 3 else score in
                score
            end
        end in
      Ok score
  end.

(** ** Feature extractor *)

Definition flag (b : bool) : Q := if b then 1%Q else 0%Q.

Definition extract_features (golden : Golden) (candidate : WebElement)
  : result (list Q) :=
  let f0 := flag (eqb_opt (get_attribute candidate "id") (g_id golden)) in
  let f1 := flag (eqb_opt (get_attribute candidate "name") (g_name golden)) in
  let f2 := flag (eqb_opt (get_attribute candidate "data-testid") (g_testid golden)) in
  let f3 := flag (eqb_opt (get_attribute candidate "class") (g_class golden)) in
  let candidate_text := strip (text candidate) in
  let f4 := flag (text_contained golden candidate_text) in
  let f5 :=
    if truthy_opt (g_innerHTML golden) then
      match get_attribute candidate "innerHTML" with
      | Some candidate_innerHTML =>
          flag (innerHTML_contained golden candidate_innerHTML)
      | None => 0%Q
      end
    else 0%Q in
  match compute_similarity golden candidate with
  | Raise e => Raise e
  | Ok raw_score =>
      let f6 := (inject_Z raw_score / 48)%Q in
      let '(f7, f8, f9) :=
        match parent candidate with
        | None => (0%Q, 0%Q, 0%Q)
        | Some candidate_parent =>
            match g_parent golden with
            | None => (0%Q, 0%Q, 0%Q)
            | Some golden_parent =>
                (flag (String.eqb (lower (tag_name candidate_parent))
                                  (lower (gp_tag golden_parent))),
                 flag (eqb_opt (get_attribute candidate_parent "id")
                               (gp_id golden_parent)),
                 flag (eqb_opt (get_attribute candidate_parent "class")
                               (gp_class golden_parent)))
            end
        end in
      Ok [f0; f1; f2; f3; f4; f5; f6; f7; f8; f9]
  end.

(** ** Selector synthesizer *)

Definition generate_selector (candidate : WebElement) : string :=
  if truthy_opt (get_attribute candidate "id") then
    "//*[@id='" +:+ default "" (get_attribute candidate "id") +:+ "']"
  else if truthy_opt (get_attribute candidate "data-testid") then
    "//*[@data-testid='" +:+ default "" (get_attribute candidate "data-testid") +:+ "']"
  else if truthy_opt (get_attribute candidate "placeholder") then
    "//" +:+ tag_name candidate +:+ "[@placeholder='"
         +:+ default "" (get_attribute candidate "placeholder") +:+ "']"
  else
    let candidate_text := strip (text candidate) in
    if truthy candidate_text then
      "//" +:+ tag_name candidate +:+ "[contains(text(), '" +:+ candidate_text +:+ "')]"
    else if truthy_opt (get_attribute candidate "class") then
      let classes := split (default "" (get_attribute candidate "class")) in
      tag_name candidate +:+ "." +:+ join "." classes
    else "//" +:+ tag_name candidate.

(** ** Golden identifier *)

Definition sanitize_xpath (original_xpath : string) : string :=
  replace "@" "" (replace "]" "" (replace "[" "" (replace "/" "_" original_xpath))).

Definition generate_golden_identifier
  (driver : WebDriver) (original_xpath : string) (element : option WebElement)
  : string :=
  let page_key := replace " " "_" (title driver) in
  let fallback := page_key +:+ "_golden_" +:+ sanitize_xpath original_xpath in
  match element with
  | None => fallback
  | Some element =>
      let candidate := get_attribute element "data-testid" in
      if truthy_opt candidate then
        page_key +:+ "_golden_" +:+ default "" candidate
      else
        let candidate := or_else (get_attribute element "id")
                                 (get_attribute element "name") in
        if truthy_opt candidate then
          page_key +:+ "_golden_" +:+ default "" candidate
        else
          let candidate_classes := get_attribute element "class" in
          if truthy_opt candidate_classes then
            let classes := replace " " "_" (strip (default "" candidate_classes)) in
            page_key +:+ "_golden_" +:+ tag_name element +:+ "_" +:+ classes
          else
            let candidate_text := strip (text element) in
            if truthy candidate_text && (String.length candidate_text <? 20)%nat then
              page_key +:+ "_golden_" +:+ tag_name element +:+ "_"
                       +:+ replace " " "_" candidate_text
            else fallback
  end.

(** ** [np.argmax]: the first position of a maximum *)

Section ArgMax.
Context {A : Type} (ltb : A → A → bool).

(** [best] at position [best_i] is the largest value seen so far; [i] is
    the position of the head of [l]. *)
Fixpoint argmax_from (best_i : nat) (best : A) (i : nat) (l : list A) : nat :=
  match l with
  | [] => best_i
  | x :: l' =>
      if ltb best x then argmax_from i x (S i) l'
      else argmax_from best_i best (S i) l'
  end.

Definition argmax (l : list A) : result nat :=
  match l with
  | [] => Raise ValueError
  | x :: l' => Ok (argmax_from 0%nat x 1%nat l')
  end.
End ArgMax.

Definition Qltb (x y : Q) : bool := negb (Qle_bool y x).

(** ** The classifier, a black box *)

Class Classifier : Type := {
  Model : Type;
  (** [XGBClassifier(...).fit(X, y)]: the fitted model, or the error the
      library raises on a corpus it refuses *)
  fit : list (list Q) → list Z → result Model;
  (** one row of [model.predict_proba(X)[:, 1]] *)
  predict_proba : Model → list Q → Q
}.

Definition MIN_SAMPLES_FOR_MODEL : nat := 5.

Definition NoCandidatesFound (tag : string) : exn :=
  Exception ("No candidate elements found with tag: " +:+ tag).

Definition HealingVerificationFailed : exn :=
  Exception "Self-healing failed: the generated selector did not locate an element.".

(** ** State: the corpus lists, the files, the agent *)

Section Healing.
Context `{Classifier}.

Inductive io_event : Type :=
| WroteGolden (data : gmap string (gmap string Golden))
| WroteTrainingData (training_data : list (list Q)) (training_labels : list Z)
| WroteModel (model : Model).

(** The three files, and the writes made so far, oldest first. *)
Record Disk : Type := mkDisk {
  golden_file : option (gmap string (gmap string Golden));
  training_file : option (list (list Q) * list Z);
  model_file : option Model;
  writes : list io_event
}.

(** What a healing round works on: the two corpus lists, which it
    extends in place, and the files. *)
Record Heap : Type := mkHeap {
  training_data : list (list Q);
  training_labels : list Z;
  disk : Disk
}.

(** A computation that reads and updates a state [S] and returns or
    raises; the state it leaves is kept when it raises. *)
Definition Py (S A : Type) : Type := S → S * result A.

#[global] Instance Py_ret {S} : MRet (Py S) := fun _ a s => (s, Ok a).
#[global] Instance Py_bind {S} : MBind (Py S) := fun _ _ k m s =>
  match m s with
  | (s', Ok a) => k a s'
  | (s', Raise e) => (s', Raise e)
  end.

Definition raise {S A} (e : exn) : Py S A := fun s => (s, Raise e).
Definition lift {S A} (r : result A) : Py S A := fun s => (s, r).
Definition gets {S A} (f : S → A) : Py S A := fun s => (s, Ok (f s)).
Definition modify {S} (f : S → S) : Py S unit := fun s => (f s, Ok tt).

Definition save_training_data_disk
  (training_data : list (list Q)) (training_labels : list Z) (d : Disk) : Disk :=
  {| golden_file := golden_file d;
     training_file := Some (training_data, training_labels);
     model_file := model_file d;
     writes := writes d ++ [WroteTrainingData training_data training_labels] |}.

Definition save_model_disk (model : Model) (d : Disk) : Disk :=
  {| golden_file := golden_file d;
     training_file := training_file d;
     model_file := Some model;
     writes := writes d ++ [WroteModel model] |}.

Definition store_global_golden_data_disk
  (data : gmap string (gmap string Golden)) (d : Disk) : Disk :=
  {| golden_file := Some data;
     training_file := training_file d;
     model_file := model_file d;
     writes := writes d ++ [WroteGolden data] |}.

Definition load_training_data (d : Disk) : list (list Q) * list Z :=
  default ([], []) (training_file d).

Definition load_model (d : Disk) : option Model := model_file d.

Definition load_global_golden_data (d : Disk) : gmap string (gmap string Golden) :=
  default ∅ (golden_file d).

Definition on_disk (f : Disk → Disk) (h : Heap) : Heap :=
  {| training_data := training_data h;
     training_labels := training_labels h;
     disk := f (disk h) |}.

Definition save_training_data : Py Heap unit :=
  modify (fun h => on_disk (save_training_data_disk (training_data h) (training_labels h)) h).

Definition save_model (model : Model) : Py Heap unit :=
  modify (on_disk (save_model_disk model)).

(** [training_data.extend(features_list); training_labels.extend(labels)] *)
Definition extend_corpus (features_list : list (list Q)) (labels : list Z)
  : Py Heap unit :=
  modify (fun h =>
    {| training_data := training_data h ++ features_list;
       training_labels := training_labels h ++ labels;
       disk := disk h |}).

(** ** The healing round *)

Definition get_all_candidates (driver : WebDriver) (golden : Golden)
  : list WebElement :=
  find_elements driver (g_tag golden).

(** The scoring loop: per candidate, its features, then its score. *)
Definition score_candidates (golden : Golden) (candidates : list WebElement)
  : result (list (list Q * Z)) :=
  mapM (fun candidate =>
          features ← extract_features golden candidate;
          score ← compute_similarity golden candidate;
          mret (features, score)) candidates.

Definition make_labels (best_index_heuristic : nat) (n : nat) : list Z :=
  map (fun i => if (i =? best_index_heuristic)%nat then 1 else 0) (seq 0 n).

(** Retrain when the corpus is long enough, else keep the model given.
    An error of [fit] leaves the round before anything is saved. *)
Definition retrain (model : option Model) : Py Heap (option Model) :=
  n ← gets (fun h => length (training_labels h));
  if (MIN_SAMPLES_FOR_MODEL <=? n)%nat then
    clf ← (fun h => (h, fit (training_data h) (training_labels h)));
    _ ← save_training_data;
    _ ← save_model clf;
    mret (Some clf)
  else mret model.

(** The position of the winner: the model's when there is one. *)
Definition rank (model : option Model) (features_list : list (list Q))
  (best_index_heuristic : nat) : result nat :=
  match model with
  | Some m => argmax Qltb (map (predict_proba m) features_list)
  | None => Ok best_index_heuristic
  end.

Definition item {A} (l : list A) (i : nat) : result A :=
  match l !! i with
  | Some x => Ok x
  | None => Raise IndexError
  end.

(** Synthesize the winner's locator and query the page with it. *)
Definition verify (driver : WebDriver) (chosen_candidate : WebElement)
  : result string :=
  let new_selector := generate_selector chosen_candidate in
  match find_element driver new_selector with
  | Ok _ => Ok new_selector
  | Raise NoSuchElementException => Raise HealingVerificationFailed
  | Raise e => Raise e
  end.

(** Lines 211-250 of the round: enumerate, score, label, extend the
    corpus, retrain, and pick [chosen_candidate]. *)
Definition choose_candidate
  (driver : WebDriver) (golden : Golden) (model : option Model)
  : Py Heap (WebElement * option Model) :=
  let candidates := get_all_candidates driver golden in
  match candidates with
  | [] => raise (NoCandidatesFound (g_tag golden))
  | _ =>
      scored ← lift (score_candidates golden candidates);
      let features_list := map fst scored in
      let candidate_list := candidates in
      let heuristic_scores := map snd scored in
      best_index_heuristic ← lift (argmax Z.ltb heuristic_scores);
      let labels := make_labels best_index_heuristic (length candidates) in
      _ ← extend_corpus features_list labels;
      model ← retrain model;
      best_index ← lift (rank model features_list best_index_heuristic);
      chosen_candidate ← lift (item candidate_list best_index);
      mret (chosen_candidate, model)
  end.

Definition self_heal_selector
  (driver : WebDriver) (golden : Golden) (model : option Model)
  : Py Heap (string * WebElement * option Model) :=
  '(chosen_candidate, model) ← choose_candidate driver golden model;
  new_selector ← lift (verify driver chosen_candidate);
  mret (new_selector, chosen_candidate, model).

Definition get_updated_locator
  (driver : WebDriver) (original_xpath : string) (golden : option Golden)
  (model : option Model)
  : Py Heap (string * option WebElement * option Model) :=
  match find_element driver original_xpath with
  | Ok _ => mret (original_xpath, None, model)
  | Raise NoSuchElementException =>
      match golden with
      | None => raise AttributeError
      | Some golden =>
          '(new_selector, chosen, model) ← self_heal_selector driver golden model;
          mret (new_selector, Some chosen, model)
      end
  | Raise e => raise e
  end.

(** ** The agent *)

Record Agent : Type := mkAgent {
  page_key : string;
  global_data : gmap string (gmap string Golden);
  model : option Model;
  heap : Heap
}.

(** Run a computation on the corpus and the files inside the agent. *)
Definition on_heap {A} (m : Py Heap A) : Py Agent A := fun a =>
  let '(h, r) := m (heap a) in
  ({| page_key := page_key a; global_data := global_data a;
      model := model a; heap := h |}, r).

Definition set_model (m : option Model) : Py Agent unit :=
  modify (fun a => {| page_key := page_key a; global_data := global_data a;
                      model := m; heap := heap a |}).

(** [self.global_data[self.page_key][golden_id] = golden], then
    [store_global_golden_data(self.global_data)]. *)
Definition record_golden (golden_id : string) (golden : Golden) (a : Agent) : Agent :=
  let data := <[page_key a := <[golden_id := golden]> (default ∅ (global_data a !! page_key a))]>
                (global_data a) in
  {| page_key := page_key a; global_data := data; model := model a;
     heap := on_disk (store_global_golden_data_disk data) (heap a) |}.

(** [SelfHealingAgent(driver)], started on the files [d]. *)
Definition init (driver : WebDriver) (d : Disk) : Agent :=
  let data := load_global_golden_data d in
  let key := replace " " "_" (title driver) in
  let '(data, d) :=
    match data !! key with
    | Some _ => (data, d)
    | None => let data := <[key := ∅]> data in
              (data, store_global_golden_data_disk data d)
    end in
  let '(training_data, training_labels) := load_training_data d in
  {| page_key := key; global_data := data; model := load_model d;
     heap := {| training_data := training_data;
                training_labels := training_labels; disk := d |} |}.

Definition capture_golden_if_missing (driver : WebDriver) (original_xpath : string)
  : Py Agent string :=
  let golden_id := generate_golden_identifier driver original_xpath None in
  page ← (fun a => (a, match global_data a !! page_key a with
                       | Some page => Ok page
                       | None => Raise (KeyError (page_key a))
                       end));
  match page !! golden_id with
  | Some _ => mret golden_id
  | None =>
      match find_element driver original_xpath ≫= capture_element_attributes with
      | Ok golden => _ ← modify (record_golden golden_id golden); mret golden_id
      | Raise _ => mret golden_id
      end
  end.

Definition locate_element (driver : WebDriver) (original_xpath : string)
  : Py Agent WebElement :=
  golden_identifier ← capture_golden_if_missing driver original_xpath;
  golden ← gets (fun a => global_data a !! page_key a ≫= (.!! golden_identifier));
  match find_element driver original_xpath with
  | Ok element => mret element
  | Raise NoSuchElementException =>
      m ← gets model;
      '(new_locator, _, m) ← on_heap (get_updated_locator driver original_xpath golden m);
      _ ← set_model m;
      lift (find_element driver new_locator)
  | Raise e => raise e
  end.

(** A session: the agent asked to locate one element after another, each
    time on the page as it then is; a call that raises leaves the agent
    as the raise left it. *)
Fixpoint run_session (calls : list (WebDriver * string)) (a : Agent) : Agent :=
  match calls with
  | [] => a
  | (driver, original_xpath) :: rest =>
      run_session rest (fst (locate_element driver original_xpath a))
  end.

(** Healing rounds one after another on the same corpus, the model
    handed on as the agent does: taken from a round that returns, kept
    from before a round that raises. *)
Fixpoint heal_rounds (rounds : list (WebDriver * Golden))
  (m : option Model) (h : Heap) : Heap * option Model :=
  match rounds with
  | [] => (h, m)
  | (driver, golden) :: rest =>
      match self_heal_selector driver golden m h with
      | (h', Ok (_, _, m')) => heal_rounds rest m' h'
      | (h', Raise _) => heal_rounds rest m h'
      end
  end.

End Healing.

(** * Properties *)

(** ** Strings *)

Module PyStrFacts.

Lemma prefix_refl (s : string) : String.prefix s s = true.
Proof.
  induction s as [|c s IH]; simpl; [reflexivity|].
  destruct (Ascii.ascii_dec c c); [exact IH | congruence].
Qed.

Lemma prefix_app (n post : string) : String.prefix n (n +:+ post) = true.
Proof.
  induction n as [|c n IH]; simpl.
  - destruct post; reflexivity.
  - destruct (Ascii.ascii_dec c c); [exact IH | congruence].
Qed.

Lemma contains_prefix (n h : string) :
  String.prefix n h = true → contains n h = true.
Proof. intros E. destruct h; simpl in *; rewrite E; reflexivity. Qed.

Lemma contains_infix (pre n post : string) :
  contains n (pre +:+ (n +:+ post)) = true.
Proof.
  induction pre as [|c pre IH].
  - change (contains n (n +:+ post) = true). apply contains_prefix, prefix_app.
  - change (contains n (String c (pre +:+ (n +:+ post))) = true).
    cbn [contains]. rewrite IH. apply orb_true_r.
Qed.

Lemma contains_refl (s : string) : contains s s = true.
Proof. apply contains_prefix, prefix_refl. Qed.

Lemma lstrip_suffix (s : string) : ∃ pre, s = pre +:+ lstrip s.
Proof.
  induction s as [|c s [pre IH]]; cbn [lstrip].
  - exists "". reflexivity.
  - destruct (is_space c).
    + exists (String c pre).
      change (String c s = String c (pre +:+ lstrip s)). f_equal. exact IH.
    + exists "". reflexivity.
Qed.

Lemma rstrip_prefix (s : string) : ∃ post, s = rstrip s +:+ post.
Proof.
  induction s as [|c s [post IH]]; cbn [rstrip].
  - exists "". reflexivity.
  - destruct (rstrip s) eqn:E.
    + destruct (is_space c).
      * exists (String c s). reflexivity.
      * exists post. change (String c s = String c ("" +:+ post)).
        f_equal. exact IH.
    + exists post. change (String c s = String c (String a s0 +:+ post)).
      f_equal. exact IH.
Qed.

Lemma contains_strip (s : string) : contains (strip s) s = true.
Proof.
  unfold strip.
  destruct (lstrip_suffix s) as [pre Hpre].
  destruct (rstrip_prefix (lstrip s)) as [post Hpost].
  rewrite Hpre at 2. rewrite Hpost at 2. apply contains_infix.
Qed.

Lemma truthy_strip (s : string) : truthy (strip s) = true → truthy s = true.
Proof. destruct s; [intros H; exact H | reflexivity]. Qed.

Lemma eqb_opt_refl (o : option string) : eqb_opt o o = true.
Proof. destruct o; simpl; [apply String.eqb_refl | reflexivity]. Qed.

Lemma eqb_opt_eq (a b : option string) : eqb_opt a b = true ↔ a = b.
Proof.
  destruct a, b; simpl; split; try congruence.
  - intros E. apply String.eqb_eq in E. congruence.
  - intros [= ->]. apply String.eqb_refl.
Qed.

End PyStrFacts.
Import PyStrFacts.

(** ** The heuristic scorer and the feature extractor *)

(** The golden holds what [capture_element_attributes] would read off the
    candidate: every field the golden has is the candidate's. *)
Definition same_parent (gp : GoldenParent) (p : WebElement) : Prop :=
  gp_tag gp = tag_name p ∧
  gp_id gp = get_attribute p "id" ∧
  gp_class gp = get_attribute p "class".

Definition same_attributes (g : Golden) (c : WebElement) : Prop :=
  g_tag g = tag_name c ∧
  g_id g = get_attribute c "id" ∧
  g_name g = get_attribute c "name" ∧
  g_testid g = get_attribute c "data-testid" ∧
  g_class g = get_attribute c "class" ∧
  g_text g = Some (strip (text c)) ∧
  (∀ h, g_innerHTML g = Some h →
        ∃ h', get_attribute c "innerHTML" = Some h' ∧ strip h' = h) ∧
  (∀ gp, g_parent g = Some gp → ∃ p, parent c = Some p ∧ same_parent gp p).

(** A candidate that the scorer can read: its [innerHTML] is there when
    the golden has one to compare with. *)
Definition scorable (g : Golden) (c : WebElement) : Prop :=
  truthy_opt (g_innerHTML g) = true → is_Some (get_attribute c "innerHTML").

Lemma capture_same_attributes (e : WebElement) (g : Golden) :
  capture_element_attributes e = Ok g → same_attributes g e.
Proof.
  unfold capture_element_attributes.
  destruct (String.eqb (lower (tag_name e)) "div").
  - destruct (get_attribute e "innerHTML") as [h'|] eqn:Eh; [|discriminate].
    intros [= <-]. repeat split; cbn.
    + intros h [= <-]. eauto.
    + intros gp Hgp. destruct (parent e) as [p|]; [|discriminate].
      injection Hgp as <-. exists p. repeat split.
  - intros [= <-]. repeat split; cbn.
    + intros h [=].
    + intros gp Hgp. destruct (parent e) as [p|]; [|discriminate].
      injection Hgp as <-. exists p. repeat split.
Qed.

Lemma compute_similarity_tag_mismatch (g : Golden) (c : WebElement) :
  String.eqb (lower (tag_name c)) (lower (g_tag g)) = false →
  compute_similarity g c = Ok 0.
Proof. intros E. unfold compute_similarity. rewrite E. reflexivity. Qed.

Lemma compute_similarity_scorable (g : Golden) (c : WebElement) :
  scorable g c → ∃ s, compute_similarity g c = Ok s.
Proof.
  intros Hs. unfold compute_similarity.
  destruct (negb _); [eauto|].
  destruct (truthy_opt (g_innerHTML g)) eqn:Et; [|eauto].
  destruct (Hs Et) as [h ->]. eauto.
Qed.

Definition golden_upper_div : Golden :=
  mkGolden "DIV" None None None None (Some "") None None.

Definition candidate_lower_div : WebElement := mkWebElement "div" ∅ "" None.

Definition golden_input_email : Golden :=
  mkGolden "input" (Some "email") None None None (Some "") None None.

Definition candidate_div_email : WebElement :=
  mkWebElement "div" {[ "id" := "email" ]} "" None.

(** C3, as the claim states it, fails: a golden recorded with tag [DIV]
    and a candidate with tag [div] have different tags, and the score is
    33, not 0. *)
Lemma tag_gate_counterexample :
  tag_name candidate_lower_div ≠ g_tag golden_upper_div ∧
  compute_similarity golden_upper_div candidate_lower_div = Ok 33.
Proof. split; [discriminate | reflexivity]. Qed.

(** C3, amended: whenever the candidate's tag and the golden's tag differ
    after lower-casing both, [compute_similarity] returns exactly 0,
    whatever the other attributes are. *)
Theorem tag_gate (g : Golden) (c : WebElement) :
  lower (tag_name c) ≠ lower (g_tag g) → compute_similarity g c = Ok 0.
Proof.
  intros Hne. apply compute_similarity_tag_mismatch.
  apply String.eqb_neq. exact Hne.
Qed.

Lemma tag_gate_witness :
  g_id golden_input_email = get_attribute candidate_div_email "id" ∧
  compute_similarity golden_input_email candidate_div_email = Ok 0.
Proof.
  split; [reflexivity|].
  apply (tag_gate golden_input_email candidate_div_email). discriminate.
Defined.

Definition e_form : WebElement :=
  mkWebElement "form" {[ "id" := "userDataForm" ]} "" None.

(** [<input id="email" name="email">] inside the form: no visible text. *)
Definition e_email : WebElement :=
  mkWebElement "input" {[ "id" := "email"; "name" := "email"; "innerHTML" := "" ]}
               "" (Some e_form).

Definition golden_email : Golden :=
  mkGolden "input" (Some "email") None (Some "email") None (Some "") None
           (Some (mkGoldenParent "form" (Some "userDataForm") None None None)).

(** [<div id="banner" class="note"> Hello </div>] inside the form. *)
Definition e_banner : WebElement :=
  mkWebElement "div"
    {[ "id" := "banner"; "class" := "note"; "innerHTML" := " Hello " ]}
    " Hello " (Some e_form).

Definition golden_banner : Golden :=
  mkGolden "div" (Some "banner") (Some "note") None None (Some "Hello")
           (Some "Hello")
           (Some (mkGoldenParent "form" (Some "userDataForm") None None None)).

(** C4, as the claim states it, fails: the golden captured from an
    [input] without text is identical to that element in every captured
    attribute, and the element scores 43, with the text and innerHTML
    flags at 0 and f6 = 43/48. *)
Lemma identical_candidate_counterexample :
  capture_element_attributes e_email = Ok golden_email ∧
  same_attributes golden_email e_email ∧
  compute_similarity golden_email e_email = Ok 43 ∧
  extract_features golden_email e_email
  = Ok [1; 1; 1; 1; 0; 0; inject_Z 43 / 48; 1; 1; 1]%Q.
Proof.
  assert (Hc : capture_element_attributes e_email = Ok golden_email)
    by reflexivity.
  split; [exact Hc|]. split; [exact (capture_same_attributes _ _ Hc)|].
  split; reflexivity.
Qed.

(** C4, amended: for every candidate identical to the golden in every
    captured attribute, whose visible text is not empty, and whose golden
    holds a non-empty innerHTML and a parent, [compute_similarity] returns
    48 and [extract_features] returns the nine flags at 1 and an f6 equal
    to 1. *)
Theorem identical_candidate_scores_48 (g : Golden) (c : WebElement) :
  same_attributes g c →
  truthy (strip (text c)) = true →
  truthy_opt (g_innerHTML g) = true →
  is_Some (g_parent g) →
  compute_similarity g c = Ok 48 ∧
  ∃ f6, extract_features g c = Ok [1; 1; 1; 1; 1; 1; f6; 1; 1; 1]%Q ∧ (f6 == 1)%Q.
Proof.
  intros (Htag & Hid & Hname & Htid & Hcls & Htxt & Hinner & Hpar) Ht Hi [gp Hgp].
  destruct (g_innerHTML g) as [h|] eqn:Eh; [|discriminate].
  destruct (Hinner h eq_refl) as (h' & Eh' & <-).
  destruct (Hpar gp Hgp) as (p & Ep & Hptag & Hpid & Hpcls).
  assert (Hsim : compute_similarity g c = Ok 48).
  { unfold compute_similarity, text_contained, innerHTML_contained.
    rewrite Htag, String.eqb_refl, Hid, Hname, Htid, Hcls, Htxt, Eh, Eh', Ep, Hgp.
    rewrite Hptag, Hpid, Hpcls, String.eqb_refl, !eqb_opt_refl.
    cbn. cbn in Hi. rewrite Ht, Hi, !contains_refl. reflexivity. }
  split; [exact Hsim|].
  exists (inject_Z 48 / 48)%Q. split; [|reflexivity].
  unfold extract_features, text_contained, innerHTML_contained.
  rewrite Hsim, Hid, Hname, Htid, Hcls, Htxt, Eh, Eh', Ep, Hgp.
  rewrite Hptag, Hpid, Hpcls, String.eqb_refl, !eqb_opt_refl.
  cbn. cbn in Hi. rewrite Ht, Hi, (truthy_strip _ Hi), contains_refl, contains_strip.
  reflexivity.
Qed.

Lemma identical_candidate_scores_48_witness :
  capture_element_attributes e_banner = Ok golden_banner ∧
  compute_similarity golden_banner e_banner = Ok 48 ∧
  ∃ f6, extract_features golden_banner e_banner
        = Ok [1; 1; 1; 1; 1; 1; f6; 1; 1; 1]%Q ∧ (f6 == 1)%Q.
Proof.
  split; [reflexivity|].
  apply (identical_candidate_scores_48 golden_banner e_banner).
  - apply capture_same_attributes. reflexivity.
  - reflexivity.
  - reflexivity.
  - eexists. reflexivity.
Defined.

(** *** The score as a sum of per-attribute points *)

Definition points (b : bool) (w : Z) : Z := if b then w else 0.

Definition id_points (g : Golden) (c : WebElement) : Z :=
  points (eqb_opt (get_attribute c "id") (g_id g)) 10.
Definition name_points (g : Golden) (c : WebElement) : Z :=
  points (eqb_opt (get_attribute c "name") (g_name g)) 10.
Definition testid_points (g : Golden) (c : WebElement) : Z :=
  points (eqb_opt (get_attribute c "data-testid") (g_testid g)) 8.
Definition class_points (g : Golden) (c : WebElement) : Z :=
  points (eqb_opt (get_attribute c "class") (g_class g)) 5.
Definition text_points (g : Golden) (c : WebElement) : Z :=
  points (text_contained g (strip (text c))) 3.
Definition innerHTML_points (g : Golden) (c : WebElement) : Z :=
  if truthy_opt (g_innerHTML g) then
    match get_attribute c "innerHTML" with
    | Some h => points (innerHTML_contained g (strip h)) 2
    | None => 0
    end
  else 0.
Definition parent_tag_points (gp : GoldenParent) (p : WebElement) : Z :=
  points (String.eqb (lower (tag_name p)) (lower (gp_tag gp))) 2.
Definition parent_id_points (gp : GoldenParent) (p : WebElement) : Z :=
  points (eqb_opt (get_attribute p "id") (gp_id gp)) 5.
Definition parent_class_points (gp : GoldenParent) (p : WebElement) : Z :=
  points (eqb_opt (get_attribute p "class") (gp_class gp)) 3.
Definition parent_points (g : Golden) (c : WebElement) : Z :=
  match parent c, g_parent g with
  | Some p, Some gp =>
      parent_tag_points gp p + parent_id_points gp p + parent_class_points gp p
  | _, _ => 0
  end.

(** Case analysis on every condition of the goal, one at a time. *)
Ltac split_ifs :=
  repeat (match goal with
          | |- context [if ?b then _ else _] => destruct b
          end; cbv beta iota).

Lemma points_nonneg (b : bool) (w : Z) : 0 ≤ w → 0 ≤ points b w.
Proof. destruct b; simpl; lia. Qed.

Lemma points_le (b : bool) (w : Z) : 0 ≤ w → points b w ≤ w.
Proof. destruct b; simpl; lia. Qed.

Lemma innerHTML_points_bounds (g : Golden) (c : WebElement) :
  0 ≤ innerHTML_points g c ≤ 2.
Proof.
  unfold innerHTML_points.
  destruct (truthy_opt _); [|lia].
  destruct (get_attribute c "innerHTML"); [|lia].
  unfold points. destruct (innerHTML_contained _ _); lia.
Qed.

Lemma parent_points_bounds (g : Golden) (c : WebElement) :
  0 ≤ parent_points g c ≤ 10.
Proof.
  unfold parent_points, parent_tag_points, parent_id_points, parent_class_points,
    points.
  destruct (parent c); [|lia]. destruct (g_parent g); [|lia].
  split_ifs; lia.
Qed.

Lemma compute_similarity_sum (g : Golden) (c : WebElement) :
  lower (tag_name c) = lower (g_tag g) →
  scorable g c →
  compute_similarity g c
  = Ok (id_points g c + name_points g c + testid_points g c + class_points g c
        + text_points g c + innerHTML_points g c + parent_points g c).
Proof.
  intros Htag Hs.
  unfold compute_similarity, id_points, name_points, testid_points, class_points,
    text_points, innerHTML_points, parent_points, parent_tag_points,
    parent_id_points, parent_class_points, points.
  rewrite Htag, String.eqb_refl. cbn [negb].
  destruct (truthy_opt (g_innerHTML g)) eqn:Et.
  - destruct (Hs Et) as [h ->].
    destruct (parent c) as [p|], (g_parent g) as [gp|]; split_ifs; reflexivity.
  - destruct (parent c) as [p|], (g_parent g) as [gp|]; split_ifs; reflexivity.
Qed.

(** The score never leaves [0, 48]. *)
Lemma compute_similarity_bounds (g : Golden) (c : WebElement) (s : Z) :
  compute_similarity g c = Ok s → 0 ≤ s ≤ 48.
Proof.
  destruct (String.eqb (lower (tag_name c)) (lower (g_tag g))) eqn:Etag.
  - apply String.eqb_eq in Etag.
    destruct (truthy_opt (g_innerHTML g)) eqn:Et.
    + destruct (get_attribute c "innerHTML") as [h|] eqn:Eh.
      * rewrite compute_similarity_sum by (try intros _; eauto).
        intros [= <-].
        pose proof (innerHTML_points_bounds g c).
        pose proof (parent_points_bounds g c).
        unfold id_points, name_points, testid_points, class_points, text_points,
          points.
        split_ifs; lia.
      * unfold compute_similarity. rewrite Etag, String.eqb_refl, Et, Eh.
        discriminate.
    + rewrite compute_similarity_sum by (try (intros E; congruence); eauto).
      intros [= <-].
      pose proof (innerHTML_points_bounds g c).
      pose proof (parent_points_bounds g c).
      unfold id_points, name_points, testid_points, class_points, text_points,
        points.
      split_ifs; lia.
  - rewrite compute_similarity_tag_mismatch by exact Etag. intros [= <-]. lia.
Qed.

Definition heuristic_points (g : Golden) (c : WebElement) : Z :=
  id_points g c + name_points g c + testid_points g c + class_points g c
  + text_points g c + innerHTML_points g c + parent_points g c.

(** What [extract_features] returns once the score is known. *)
Lemma extract_features_spec (g : Golden) (c : WebElement) (s : Z) :
  compute_similarity g c = Ok s →
  ∃ f4 f5 f7 f8 f9,
    extract_features g c
    = Ok [flag (eqb_opt (get_attribute c "id") (g_id g));
          flag (eqb_opt (get_attribute c "name") (g_name g));
          flag (eqb_opt (get_attribute c "data-testid") (g_testid g));
          flag (eqb_opt (get_attribute c "class") (g_class g));
          f4; f5; (inject_Z s / 48)%Q; f7; f8; f9] ∧
    (∀ gp p, g_parent g = Some gp → parent c = Some p →
             f8 = flag (eqb_opt (get_attribute p "id") (gp_id gp)) ∧
             f9 = flag (eqb_opt (get_attribute p "class") (gp_class gp))) ∧
    (g_parent g = None ∨ parent c = None → f7 = 0%Q ∧ f8 = 0%Q ∧ f9 = 0%Q).
Proof.
  intros Hs. unfold extract_features. rewrite Hs.
  destruct (parent c) as [p|], (g_parent g) as [gp|];
    do 5 eexists; (split; [reflexivity|]); split;
    try (intros ? ? [=] [=]; subst; split; reflexivity);
    try (intros ? ? [=]); try (intros ? ? ? [=]);
    try (intros [[=]|[=]]); repeat split.
Qed.

Lemma extract_features_length (g : Golden) (c : WebElement) (fs : list Q) :
  extract_features g c = Ok fs → length fs = 10%nat.
Proof.
  unfold extract_features.
  destruct (compute_similarity g c); [|discriminate].
  destruct (parent c), (g_parent g); intros [= <-]; reflexivity.
Qed.

(** The root element and its snapshot: neither has a parent. *)
Definition e_root : WebElement := mkWebElement "html" ∅ "" None.

Definition golden_root : Golden :=
  mkGolden "html" None None None None (Some "") None None.

Definition golden_plain_div : Golden :=
  mkGolden "div" None None None None (Some "") None None.

Definition e_plain_span : WebElement := mkWebElement "span" ∅ "" None.

(** C9, as the claim states it, fails.  The root element and the golden
    captured from it both lack a parent id and a parent class, and no
    parent weight is added (the score is 10+10+8+5 = 33) and f8 = f9 = 0;
    and a [div] golden and a [span] candidate both lack an id, and the
    score is 0, while the flags f0..f3 are 1 all the same. *)
Lemma absent_attribute_counterexample :
  (capture_element_attributes e_root = Ok golden_root ∧
   g_parent golden_root = None ∧ parent e_root = None ∧
   compute_similarity golden_root e_root = Ok 33 ∧
   extract_features golden_root e_root
   = Ok [1; 1; 1; 1; 0; 0; inject_Z 33 / 48; 0; 0; 0]%Q) ∧
  (g_id golden_plain_div = None ∧ get_attribute e_plain_span "id" = None ∧
   compute_similarity golden_plain_div e_plain_span = Ok 0 ∧
   extract_features golden_plain_div e_plain_span
   = Ok [1; 1; 1; 1; 0; 0; inject_Z 0 / 48; 0; 0; 0]%Q).
Proof. repeat split. Qed.

(** C9, amended.  The flags do not look at the tags: each of id, name,
    data-testid and class that is [None] on both sides sets its flag
    f0..f3 to 1, and, when the golden recorded a parent and the candidate
    has a parent element, a parent id or parent class that is [None] on
    both sides sets f8 or f9 to 1; when either parent is missing, f7, f8
    and f9 are 0 and no parent weight is added.  The weights sit behind
    the tag gate: for a candidate that passes it the score is the sum of
    the per-attribute points, each of id, name, data-testid and class that
    is [None] on both sides earns its full weight (10, 10, 8, 5), with both
    parents there a parent id or class that is [None] on both sides earns
    its full weight (5, 3), and two elements with no id, name, data-testid
    or class score at least 33; for a candidate that fails the gate the
    score is 0. *)
Theorem absent_attributes_count_as_matches (g : Golden) (c : WebElement) :
  scorable g c →
  ∃ s fs,
    compute_similarity g c = Ok s ∧
    extract_features g c = Ok fs ∧
    (g_id g = None → get_attribute c "id" = None → fs !! 0%nat = Some 1%Q) ∧
    (g_name g = None → get_attribute c "name" = None → fs !! 1%nat = Some 1%Q) ∧
    (g_testid g = None → get_attribute c "data-testid" = None →
       fs !! 2%nat = Some 1%Q) ∧
    (g_class g = None → get_attribute c "class" = None → fs !! 3%nat = Some 1%Q) ∧
    (∀ gp p, g_parent g = Some gp → parent c = Some p →
       (gp_id gp = None → get_attribute p "id" = None → fs !! 8%nat = Some 1%Q) ∧
       (gp_class gp = None → get_attribute p "class" = None →
          fs !! 9%nat = Some 1%Q)) ∧
    (g_parent g = None ∨ parent c = None →
       fs !! 7%nat = Some 0%Q ∧ fs !! 8%nat = Some 0%Q ∧ fs !! 9%nat = Some 0%Q ∧
       parent_points g c = 0) ∧
    (lower (tag_name c) = lower (g_tag g) →
       s = heuristic_points g c ∧
       (g_id g = None → get_attribute c "id" = None → id_points g c = 10) ∧
       (g_name g = None → get_attribute c "name" = None → name_points g c = 10) ∧
       (g_testid g = None → get_attribute c "data-testid" = None →
          testid_points g c = 8) ∧
       (g_class g = None → get_attribute c "class" = None → class_points g c = 5) ∧
       (∀ gp p, g_parent g = Some gp → parent c = Some p →
          parent_points g c
          = parent_tag_points gp p + parent_id_points gp p
            + parent_class_points gp p ∧
          (gp_id gp = None → get_attribute p "id" = None →
             parent_id_points gp p = 5) ∧
          (gp_class gp = None → get_attribute p "class" = None →
             parent_class_points gp p = 3)) ∧
       (g_id g = None → g_name g = None → g_testid g = None → g_class g = None →
        get_attribute c "id" = None → get_attribute c "name" = None →
        get_attribute c "data-testid" = None → get_attribute c "class" = None →
          33 ≤ s)) ∧
    (lower (tag_name c) ≠ lower (g_tag g) → s = 0).
Proof.
  intros Hsc.
  destruct (compute_similarity_scorable g c Hsc) as [s Hsim].
  destruct (extract_features_spec g c s Hsim)
    as (f4 & f5 & f7 & f8 & f9 & Hfs & Hpar & Hnone).
  exists s. eexists. split; [exact Hsim|]. split; [exact Hfs|].
  split; [intros -> ->; reflexivity|].
  split; [intros -> ->; reflexivity|].
  split; [intros -> ->; reflexivity|].
  split; [intros -> ->; reflexivity|].
  split.
  { intros gp p Hgp Hp. destruct (Hpar gp p Hgp Hp) as [-> ->].
    split; intros -> ->; reflexivity. }
  split.
  { intros Hmiss. destruct (Hnone Hmiss) as (-> & -> & ->).
    split; [reflexivity|]. split; [reflexivity|]. split; [reflexivity|].
    unfold parent_points.
    destruct Hmiss as [-> | ->]; [destruct (parent c)|]; reflexivity. }
  split.
  - intros Htag.
    pose proof (compute_similarity_sum g c Htag Hsc) as Hsum.
    assert (Hs : s = heuristic_points g c) by (unfold heuristic_points; congruence).
    split; [exact Hs|].
    split; [intros Hg Hc; unfold id_points; rewrite Hg, Hc; reflexivity|].
    split; [intros Hg Hc; unfold name_points; rewrite Hg, Hc; reflexivity|].
    split; [intros Hg Hc; unfold testid_points; rewrite Hg, Hc; reflexivity|].
    split; [intros Hg Hc; unfold class_points; rewrite Hg, Hc; reflexivity|].
    split.
    + intros gp p Hgp Hp.
      split; [unfold parent_points; rewrite Hgp, Hp; reflexivity|].
      split; intros Hg Hc.
      * unfold parent_id_points. rewrite Hg, Hc. reflexivity.
      * unfold parent_class_points. rewrite Hg, Hc. reflexivity.
    + intros Hi Hn Ht Hcl Hci Hcn Hct Hcc. rewrite Hs.
      pose proof (innerHTML_points_bounds g c).
      pose proof (parent_points_bounds g c).
      unfold heuristic_points, id_points, name_points, testid_points,
        class_points, text_points.
      rewrite Hi, Hn, Ht, Hcl, Hci, Hcn, Hct, Hcc. cbn [eqb_opt points].
      unfold points. destruct (text_contained _ _); lia.
  - intros Hne. apply String.eqb_neq in Hne.
    rewrite (compute_similarity_tag_mismatch g c Hne) in Hsim. congruence.
Qed.

Definition golden_plain_span : Golden :=
  mkGolden "span" None None None None (Some "") None
           (Some (mkGoldenParent "p" None None None None)).

Definition e_span_in_p : WebElement :=
  mkWebElement "span" ∅ "" (Some (mkWebElement "p" ∅ "" None)).

Lemma absent_attributes_count_as_matches_witness :
  ∃ fs,
    compute_similarity golden_plain_span e_span_in_p = Ok 43 ∧
    extract_features golden_plain_span e_span_in_p = Ok fs ∧
    id_points golden_plain_span e_span_in_p = 10 ∧
    fs !! 0%nat = Some 1%Q ∧ fs !! 8%nat = Some 1%Q ∧ fs !! 9%nat = Some 1%Q.
Proof.
  destruct (absent_attributes_count_as_matches golden_plain_span e_span_in_p)
    as (s & fs & Hsim & Hfs & Hf0 & _ & _ & _ & Hpar & _ & Hgate & _).
  - intros E. discriminate E.
  - destruct (Hpar _ _ eq_refl eq_refl) as (Hf8 & Hf9).
    destruct (Hgate eq_refl) as (Hs & Hid & _).
    exists fs. split; [rewrite Hsim, Hs; reflexivity|]. split; [exact Hfs|].
    split; [apply Hid; reflexivity|]. split; [apply Hf0; reflexivity|].
    split; [apply Hf8; reflexivity | apply Hf9; reflexivity].
Defined.

(** ** [np.argmax] returns the first maximum *)

(** Position [i] holds a maximum of [l], and every earlier position holds
    something strictly smaller. *)
Definition first_max {A} (le lt : A → A → Prop) (l : list A) (i : nat) : Prop :=
  ∃ m, l !! i = Some m ∧
       (∀ j x, l !! j = Some x → le x m) ∧
       (∀ j x, (j < i)%nat → l !! j = Some x → lt x m).

Section ArgMaxFacts.
Context {A : Type} (ltb : A → A → bool) (le lt : A → A → Prop).
Hypothesis ltb_lt : ∀ x y, ltb x y = true → lt x y.
Hypothesis ltb_le : ∀ x y, ltb x y = false → le y x.
Hypothesis le_refl : ∀ x, le x x.
Hypothesis lt_le : ∀ x y, lt x y → le x y.
Hypothesis le_lt_trans : ∀ x y z, le x y → lt y z → lt x z.
Hypothesis lt_irrefl : ∀ x, ¬ lt x x.

Lemma argmax_from_first_max (l pre : list A) (best_i : nat) (best : A) :
  pre !! best_i = Some best →
  (∀ j x, pre !! j = Some x → le x best) →
  (∀ j x, (j < best_i)%nat → pre !! j = Some x → lt x best) →
  first_max le lt (pre ++ l) (argmax_from ltb best_i best (length pre) l).
Proof.
  revert pre best_i best.
  induction l as [|x l IH]; intros pre best_i best Hbest Hle Hlt; cbn [argmax_from].
  - rewrite app_nil_r. exists best. auto.
  - replace (pre ++ x :: l) with ((pre ++ [x]) ++ l)
      by (rewrite <- app_assoc; reflexivity).
    replace (S (length pre)) with (length (pre ++ [x]))
      by (rewrite length_app; cbn; lia).
    destruct (ltb best x) eqn:E.
    + replace (length pre) with (length pre + 0)%nat at 1 by lia.
      apply IH.
      * rewrite lookup_app_r by lia.
        replace (length pre + 0 - length pre)%nat with 0%nat by lia. reflexivity.
      * intros j y Hy. apply lookup_app_Some in Hy as [Hy | [_ Hy]].
        -- apply lt_le, (le_lt_trans _ best); eauto.
        -- apply list_lookup_singleton_Some in Hy as [_ <-]. apply le_refl.
      * intros j y Hj Hy. rewrite lookup_app_l in Hy by lia.
        apply (le_lt_trans _ best); eauto.
    + apply IH.
      * apply lookup_app_l_Some. exact Hbest.
      * intros j y Hy. apply lookup_app_Some in Hy as [Hy | [_ Hy]].
        -- eauto.
        -- apply list_lookup_singleton_Some in Hy as [_ <-]. auto.
      * intros j y Hj Hy. apply lookup_lt_Some in Hbest.
        rewrite lookup_app_l in Hy by lia. eauto.
Qed.

Lemma argmax_first_max (x : A) (l : list A) :
  ∃ i, argmax ltb (x :: l) = Ok i ∧ first_max le lt (x :: l) i.
Proof.
  eexists. split; [reflexivity|].
  apply (argmax_from_first_max l [x] 0%nat x).
  - reflexivity.
  - intros [|j] y; cbn; [intros [= <-]; apply le_refl | discriminate].
  - intros j y Hj. lia.
Qed.

Lemma first_max_lt_length (l : list A) (i : nat) :
  first_max le lt l i → (i < length l)%nat.
Proof. intros (m & Hm & _). eapply lookup_lt_Some, Hm. Qed.

(** There is only one such position. *)
Lemma first_max_unique (l : list A) (i j : nat) :
  first_max le lt l i → first_max le lt l j → i = j.
Proof.
  intros (m & Hm & Hle & Hlt) (m' & Hm' & Hle' & Hlt').
  destruct (lt_eq_lt_dec i j) as [[Hij | ->] | Hij]; [exfalso | reflexivity | exfalso].
  - apply (lt_irrefl m'), (le_lt_trans _ m); eauto.
  - apply (lt_irrefl m), (le_lt_trans _ m'); eauto.
Qed.
End ArgMaxFacts.

Lemma Qltb_lt (x y : Q) : Qltb x y = true → (x < y)%Q.
Proof.
  unfold Qltb. intros E. apply negb_true_iff in E.
  apply Qnot_le_lt. intros Hle. apply Qle_bool_iff in Hle. congruence.
Qed.

Lemma Qltb_le (x y : Q) : Qltb x y = false → (y <= x)%Q.
Proof.
  unfold Qltb. intros E. apply negb_false_iff in E.
  apply Qle_bool_iff. exact E.
Qed.

Lemma argmax_Z (x : Z) (l : list Z) :
  ∃ i, argmax Z.ltb (x :: l) = Ok i ∧ first_max Z.le Z.lt (x :: l) i.
Proof.
  apply argmax_first_max; intros *; rewrite ?Z.ltb_lt, ?Z.ltb_ge; lia.
Qed.

Lemma argmax_Q (x : Q) (l : list Q) :
  ∃ i, argmax Qltb (x :: l) = Ok i ∧ first_max Qle Qlt (x :: l) i.
Proof.
  apply argmax_first_max.
  - apply Qltb_lt.
  - apply Qltb_le.
  - apply Qle_refl.
  - apply Qlt_le_weak.
  - apply Qle_lt_trans.
Qed.

(** ** The healing round *)

Section RoundFacts.
Context `{Classifier}.

Lemma mapM_length {A B} (f : A → result B) (l : list A) (ys : list B) :
  mapM f l = Ok ys → length ys = length l.
Proof.
  revert ys. induction l as [|x l IH]; intros ys; cbn.
  - intros [= <-]. reflexivity.
  - destruct (f x); [|discriminate].
    destruct (mapM f l); [|discriminate].
    intros [= <-]. cbn. f_equal. apply IH. reflexivity.
Qed.

Lemma extract_features_scorable (g : Golden) (c : WebElement) :
  scorable g c → ∃ fs, extract_features g c = Ok fs.
Proof.
  intros Hs. destruct (compute_similarity_scorable g c Hs) as [s E].
  destruct (extract_features_spec g c s E) as (? & ? & ? & ? & ? & Hfs & _).
  eauto.
Qed.

Lemma score_candidates_scorable (g : Golden) (cs : list WebElement) :
  Forall (scorable g) cs → ∃ scored, score_candidates g cs = Ok scored.
Proof.
  unfold score_candidates.
  induction 1 as [|c cs Hc _ [scored IH]]; cbn.
  - eauto.
  - destruct (extract_features_scorable g c Hc) as [fs ->].
    destruct (compute_similarity_scorable g c Hc) as [s ->].
    cbn. rewrite IH. eauto.
Qed.

Lemma score_candidates_length (g : Golden) (cs : list WebElement) scored :
  score_candidates g cs = Ok scored → length scored = length cs.
Proof. apply mapM_length. Qed.

Lemma length_make_labels (best n : nat) : length (make_labels best n) = n.
Proof. unfold make_labels. rewrite length_map, length_seq. reflexivity. Qed.


(** The corpus after [extend]. *)
Definition extended (h : Heap) (features_list : list (list Q)) (labels : list Z)
  : Heap :=
  {| training_data := training_data h ++ features_list;
     training_labels := training_labels h ++ labels;
     disk := disk h |}.

(** The files and the model after the retraining step. *)
Definition retrained (m : option Model) (h : Heap) : Heap * result (option Model) :=
  if (MIN_SAMPLES_FOR_MODEL <=? length (training_labels h))%nat then
    match fit (training_data h) (training_labels h) with
    | Ok clf =>
        (on_disk (save_model_disk clf)
           (on_disk (save_training_data_disk (training_data h) (training_labels h)) h),
         Ok (Some clf))
    | Raise e => (h, Raise e)
    end
  else (h, Ok m).

Lemma retrain_retrained (m : option Model) (h : Heap) :
  retrain m h = retrained m h.
Proof.
  cbv beta iota delta [retrain retrained mbind Py_bind gets].
  destruct (MIN_SAMPLES_FOR_MODEL <=? length (training_labels h))%nat;
    [|reflexivity].
  destruct (fit (training_data h) (training_labels h)); reflexivity.
Qed.

Lemma rank_in_range (m : option Model) (fl : list (list Q)) (best : nat) :
  fl ≠ [] → (best < length fl)%nat →
  ∃ k, rank m fl best = Ok k ∧ (k < length fl)%nat.
Proof.
  intros Hne Hb. destruct m as [m0|]; cbn; [|eauto].
  destruct fl as [|r fl]; [congruence|]. cbn [map].
  destruct (argmax_Q (predict_proba m0 r) (map (predict_proba m0) fl))
    as (k & -> & Hk).
  exists k. split; [reflexivity|].
  eapply first_max_lt_length in Hk. cbn in Hk. rewrite length_map in Hk.
  exact Hk.
Qed.

(** A round whose candidates were scored: the corpus is extended, the
    retraining step runs, and the round picks a candidate unless [fit]
    raised. *)
Lemma choose_candidate_scored (d : WebDriver) (g : Golden) (m : option Model)
  (h : Heap) (c : WebElement) (cs : list WebElement) scored :
  get_all_candidates d g = c :: cs →
  score_candidates g (c :: cs) = Ok scored →
  ∃ best,
    argmax Z.ltb (map snd scored) = Ok best ∧
    first_max Z.le Z.lt (map snd scored) best ∧
    let h1 := extended h (map fst scored) (make_labels best (length (c :: cs))) in
    fst (choose_candidate d g m h) = fst (retrained m h1) ∧
    (∀ e, snd (retrained m h1) = Raise e →
          snd (choose_candidate d g m h) = Raise e) ∧
    (∀ m2, snd (retrained m h1) = Ok m2 →
           ∃ k chosen,
             rank m2 (map fst scored) best = Ok k ∧
             (c :: cs) !! k = Some chosen ∧
             choose_candidate d g m h = (fst (retrained m h1), Ok (chosen, m2))).
Proof.
  intros Hc Hs.
  pose proof (score_candidates_length _ _ _ Hs) as Hlen.
  destruct scored as [|[fs0 s0] scored]; [discriminate|].
  destruct (argmax_Z s0 (map snd scored)) as (best & Hbest & Hmax).
  change (s0 :: map snd scored) with (map snd ((fs0, s0) :: scored)) in *.
  pose proof (first_max_lt_length _ _ _ _ Hmax) as Hb.
  rewrite length_map in Hb.
  set (h1 := extended h (map fst ((fs0, s0) :: scored))
               (make_labels best (length (c :: cs)))).
  exists best.
  split; [exact Hbest|]. split; [exact Hmax|]. cbv zeta. fold h1.
  assert (Hcc : choose_candidate d g m h
                = match retrained m h1 with
                  | (h2, Ok m2) =>
                      (h2, best_index ← rank m2 (map fst ((fs0, s0) :: scored)) best;
                           chosen ← item (c :: cs) best_index;
                           mret (chosen, m2))
                  | (h2, Raise e) => (h2, Raise e)
                  end).
  { unfold choose_candidate. rewrite Hc.
    unfold mbind at 1 2 3 4, Py_bind, lift. rewrite Hs, Hbest.
    change (extend_corpus (map fst ((fs0, s0) :: scored))
              (make_labels best (length (c :: cs))) h) with (h1, Ok tt).
    cbv beta iota. rewrite retrain_retrained.
    destruct (retrained m h1) as [h2 [m2|e]]; [|reflexivity].
    unfold mbind, Py_bind, result_bind, mret, Py_ret.
    destruct (rank m2 _ best); [|reflexivity].
    destruct (item (c :: cs) _); reflexivity. }
  rewrite Hcc.
  destruct (retrained m h1) as [h2 [m2|e]] eqn:Hr; cbn [fst snd].
  - split; [reflexivity|]. split; [discriminate|].
    intros m2' [= <-].
    destruct (rank_in_range m2 (map fst ((fs0, s0) :: scored)) best)
      as (k & Hk & Hklt); [discriminate | rewrite length_map; exact Hb |].
    rewrite length_map, Hlen in Hklt.
    destruct (lookup_lt_is_Some_2 (c :: cs) k Hklt) as [chosen Hch].
    exists k, chosen. split; [exact Hk|]. split; [exact Hch|].
    rewrite Hk. unfold item. cbn. rewrite Hch. reflexivity.
  - split; [reflexivity|]. split; [intros e' [= <-]; reflexivity | discriminate].
Qed.

(** A round that stops before it touches the corpus. *)
Lemma choose_candidate_no_candidates (d : WebDriver) (g : Golden)
  (m : option Model) (h : Heap) :
  get_all_candidates d g = [] →
  choose_candidate d g m h = (h, Raise (NoCandidatesFound (g_tag g))).
Proof. intros Hc. unfold choose_candidate. rewrite Hc. reflexivity. Qed.

Lemma choose_candidate_unscored (d : WebDriver) (g : Golden)
  (m : option Model) (h : Heap) (e : exn) :
  score_candidates g (get_all_candidates d g) = Raise e →
  ∃ e', choose_candidate d g m h = (h, Raise e').
Proof.
  intros Hs. unfold choose_candidate.
  destruct (get_all_candidates d g) as [|c cs]; [eexists; reflexivity|].
  unfold mbind, Py_bind, lift. rewrite Hs. eauto.
Qed.

Lemma self_heal_selector_heap (d : WebDriver) (g : Golden) (m : option Model)
  (h : Heap) :
  fst (self_heal_selector d g m h) = fst (choose_candidate d g m h).
Proof.
  unfold self_heal_selector, mbind, Py_bind.
  destruct (choose_candidate d g m h) as [h' [[c m']|e]]; cbn; [|reflexivity].
  unfold lift. destruct (verify d c); reflexivity.
Qed.

Lemma self_heal_selector_chosen (d : WebDriver) (g : Golden) (m : option Model)
  (h h' : Heap) (chosen : WebElement) (m' : option Model) :
  choose_candidate d g m h = (h', Ok (chosen, m')) →
  self_heal_selector d g m h
  = (h', match verify d chosen with
         | Ok new_selector => Ok (new_selector, chosen, m')
         | Raise e => Raise e
         end).
Proof.
  intros E. unfold self_heal_selector, mbind, Py_bind. rewrite E.
  unfold lift. destruct (verify d chosen); reflexivity.
Qed.

End RoundFacts.

Section RoundTheorems.
Context `{Classifier}.

Lemma retrained_corpus (m : option Model) (h : Heap) :
  training_data (fst (retrained m h)) = training_data h ∧
  training_labels (fst (retrained m h)) = training_labels h.
Proof.
  unfold retrained.
  destruct (MIN_SAMPLES_FOR_MODEL <=? length (training_labels h))%nat;
    [|split; reflexivity].
  destruct (fit (training_data h) (training_labels h)); split; reflexivity.
Qed.

Lemma retrained_enough (m : option Model) (h : Heap) (clf : Model) :
  (5 ≤ length (training_labels h))%nat →
  fit (training_data h) (training_labels h) = Ok clf →
  retrained m h
  = (on_disk (save_model_disk clf)
       (on_disk (save_training_data_disk (training_data h) (training_labels h)) h),
     Ok (Some clf)).
Proof.
  intros Hn Hfit. unfold retrained. rewrite Hfit.
  destruct (Nat.leb_spec MIN_SAMPLES_FOR_MODEL (length (training_labels h)))
    as [_|Hlt]; [reflexivity | unfold MIN_SAMPLES_FOR_MODEL in Hlt; lia].
Qed.

Lemma retrained_failed (m : option Model) (h : Heap) (e : exn) :
  (5 ≤ length (training_labels h))%nat →
  fit (training_data h) (training_labels h) = Raise e →
  retrained m h = (h, Raise e).
Proof.
  intros Hn Hfit. unfold retrained. rewrite Hfit.
  destruct (Nat.leb_spec MIN_SAMPLES_FOR_MODEL (length (training_labels h)))
    as [_|Hlt]; [reflexivity | unfold MIN_SAMPLES_FOR_MODEL in Hlt; lia].
Qed.

Lemma retrained_short (m : option Model) (h : Heap) :
  (length (training_labels h) < 5)%nat → retrained m h = (h, Ok m).
Proof.
  intros Hn. unfold retrained.
  destruct (Nat.leb_spec MIN_SAMPLES_FOR_MODEL (length (training_labels h)))
    as [Hle|_]; [unfold MIN_SAMPLES_FOR_MODEL in Hle; lia | reflexivity].
Qed.

(** The retraining step either leaves the files alone or writes the
    corpus and then a fitted model; it writes only at 5 entries or more. *)
Lemma retrained_disk (m : option Model) (h : Heap) :
  disk (fst (retrained m h)) = disk h ∨
  ∃ clf, (5 ≤ length (training_labels h))%nat ∧
         fit (training_data h) (training_labels h) = Ok clf ∧
         disk (fst (retrained m h))
         = save_model_disk clf
             (save_training_data_disk (training_data h) (training_labels h) (disk h)).
Proof.
  unfold retrained.
  destruct (Nat.leb_spec MIN_SAMPLES_FOR_MODEL (length (training_labels h)))
    as [Hle|_]; [|left; reflexivity].
  destruct (fit (training_data h) (training_labels h)) as [clf|e] eqn:Hfit;
    [|left; reflexivity].
  right. exists clf. split; [exact Hle|]. split; reflexivity.
Qed.

Lemma rank_first_max (m0 : Model) (fl : list (list Q)) (best k : nat) :
  rank (Some m0) fl best = Ok k →
  first_max Qle Qlt (map (predict_proba m0) fl) k.
Proof.
  cbn. destruct fl as [|r fl]; [discriminate|]. cbn [map].
  destruct (argmax_Q (predict_proba m0 r) (map (predict_proba m0) fl))
    as (i & -> & Hi).
  intros [= <-]. exact Hi.
Qed.

(** The heap a scored round leaves: the corpus extended by the round's
    examples, and the files as the retraining step leaves them. *)
Lemma round_heap (d : WebDriver) (g : Golden) (m : option Model)
  (h : Heap) (c : WebElement) (cs : list WebElement) scored :
  get_all_candidates d g = c :: cs →
  score_candidates g (c :: cs) = Ok scored →
  ∃ best,
    argmax Z.ltb (map snd scored) = Ok best ∧
    first_max Z.le Z.lt (map snd scored) best ∧
    let h1 := extended h (map fst scored) (make_labels best (length (c :: cs))) in
    fst (self_heal_selector d g m h) = fst (retrained m h1) ∧
    training_data (fst (self_heal_selector d g m h))
    = training_data h ++ map fst scored ∧
    training_labels (fst (self_heal_selector d g m h))
    = training_labels h ++ make_labels best (length (c :: cs)).
Proof.
  intros Hc Hs.
  destruct (choose_candidate_scored d g m h c cs scored Hc Hs)
    as (best & Hbest & Hmax & Hheap & _).
  cbv zeta in Hheap. exists best.
  split; [exact Hbest|]. split; [exact Hmax|]. cbv zeta.
  rewrite self_heal_selector_heap, Hheap.
  destruct (retrained_corpus m
    (extended h (map fst scored) (make_labels best (length (c :: cs)))))
    as [-> ->].
  split; [reflexivity|]. split; reflexivity.
Qed.

Lemma ranking_facts (d : WebDriver) (g : Golden) (m : option Model)
  (h : Heap) (c : WebElement) (cs : list WebElement) scored :
  get_all_candidates d g = c :: cs →
  score_candidates g (c :: cs) = Ok scored →
  ∃ best,
    let h' := fst (self_heal_selector d g m h) in
    let features_list := map fst scored in
    let decided (k : nat) (m' : option Model) :=
      ∃ chosen, (c :: cs) !! k = Some chosen ∧
                self_heal_selector d g m h
                = (h', new_selector ← verify d chosen;
                       mret (new_selector, chosen, m')) in
    first_max Z.le Z.lt (map snd scored) best ∧
    training_data h' = training_data h ++ features_list ∧
    length (training_labels h') = (length (training_labels h) + length (c :: cs))%nat ∧
    ((length (training_labels h') < 5)%nat →
       match m with
       | None => decided best None
       | Some m0 =>
           ∃ k, first_max Qle Qlt (map (predict_proba m0) features_list) k ∧
                decided k (Some m0)
       end) ∧
    ((5 ≤ length (training_labels h'))%nat →
       match fit (training_data h') (training_labels h') with
       | Ok clf =>
           ∃ k, first_max Qle Qlt (map (predict_proba clf) features_list) k ∧
                decided k (Some clf)
       | Raise e =>
           self_heal_selector d g m h = (h', Raise e) ∧ disk h' = disk h
       end).
Proof.
  intros Hc Hs.
  destruct (choose_candidate_scored d g m h c cs scored Hc Hs)
    as (best & _ & Hmax & Hheap & Hraise & Hok).
  cbv zeta in Hheap, Hraise, Hok.
  set (h1 := extended h (map fst scored) (make_labels best (length (c :: cs)))) in *.
  destruct (retrained_corpus m h1) as [Hd Hl].
  exists best. cbv zeta.
  rewrite self_heal_selector_heap, Hheap, Hd, Hl.
  split; [exact Hmax|]. split; [reflexivity|].
  split.
  { unfold h1. cbn [extended training_labels].
    rewrite length_app, length_make_labels. reflexivity. }
  assert (Hdec : ∀ m2, snd (retrained m h1) = Ok m2 →
            ∃ k chosen, rank m2 (map fst scored) best = Ok k ∧
              (c :: cs) !! k = Some chosen ∧
              self_heal_selector d g m h
              = (fst (retrained m h1),
                 new_selector ← verify d chosen; mret (new_selector, chosen, m2))).
  { intros m2 Hm2. destruct (Hok m2 Hm2) as (k & chosen & Hk & Hch & Hcc).
    exists k, chosen. split; [exact Hk|]. split; [exact Hch|].
    rewrite (self_heal_selector_chosen _ _ _ _ _ _ _ Hcc).
    destruct (verify d chosen); reflexivity. }
  split.
  - intros Hn. pose proof (retrained_short m h1 Hn) as Hr.
    destruct (Hdec m) as (k & chosen & Hk & Hch & Heq); [rewrite Hr; reflexivity|].
    destruct m as [m0|].
    + exists k. split; [eapply rank_first_max; exact Hk|].
      exists chosen. split; [exact Hch | exact Heq].
    + cbn in Hk. injection Hk as <-.
      exists chosen. split; [exact Hch | exact Heq].
  - intros Hn.
    destruct (fit (training_data h1) (training_labels h1)) as [clf|e] eqn:Hfit.
    + pose proof (retrained_enough m h1 clf Hn Hfit) as Hr.
      destruct (Hdec (Some clf)) as (k & chosen & Hk & Hch & Heq);
        [rewrite Hr; reflexivity|].
      exists k. split; [eapply rank_first_max; exact Hk|].
      exists chosen. split; [exact Hch | exact Heq].
    + pose proof (retrained_failed m h1 e Hn Hfit) as Hr.
      split; [|rewrite Hr; reflexivity].
      unfold self_heal_selector, mbind, Py_bind.
      destruct (choose_candidate d g m h) as [h2 r] eqn:Hcc.
      cbn [fst snd] in Hheap, Hraise.
      rewrite (Hraise e) by (rewrite Hr; reflexivity).
      rewrite Hheap. reflexivity.
Qed.

(** X18. In a round whose candidates were scored the corpus is
    extended first.  Below 5 entries the model handed to the round is
    kept: with no model the first maximum of the heuristic scores decides,
    with a model the first maximum of its class-1 probabilities.  At 5
    entries or more [fit] runs on the whole corpus: when it returns, the
    first maximum of the new model's probabilities decides; when it
    raises, the round raises the same error and the files are as before.
    In each deciding case the locator check is run on the winner. *)
Theorem ranking_policy (d : WebDriver) (g : Golden) (m : option Model)
  (h : Heap) (c : WebElement) (cs : list WebElement) scored :
  get_all_candidates d g = c :: cs →
  score_candidates g (c :: cs) = Ok scored →
  ∃ best,
    let h' := fst (self_heal_selector d g m h) in
    let features_list := map fst scored in
    let decided (k : nat) (m' : option Model) :=
      ∃ chosen, (c :: cs) !! k = Some chosen ∧
                self_heal_selector d g m h
                = (h', new_selector ← verify d chosen;
                       mret (new_selector, chosen, m')) in
    first_max Z.le Z.lt (map snd scored) best ∧
    training_data h' = training_data h ++ features_list ∧
    length (training_labels h') = (length (training_labels h) + length (c :: cs))%nat ∧
    ((length (training_labels h') < 5)%nat →
       match m with
       | None => decided best None
       | Some m0 =>
           ∃ k, first_max Qle Qlt (map (predict_proba m0) features_list) k ∧
                decided k (Some m0)
       end) ∧
    ((5 ≤ length (training_labels h'))%nat →
       match fit (training_data h') (training_labels h') with
       | Ok clf =>
           ∃ k, first_max Qle Qlt (map (predict_proba clf) features_list) k ∧
                decided k (Some clf)
       | Raise e =>
           self_heal_selector d g m h = (h', Raise e) ∧ disk h' = disk h
       end).
Proof. apply ranking_facts. Qed.

(** C2: once a round has picked its winner, a locator for it that the
    page does not resolve makes the round raise: the verification error
    when the query reports no such element, the driver's own error
    otherwise.  Nothing is returned, no other locator is tried, and the
    resolver entry point raises the same.  A locator that resolves is
    returned with the winner. *)
Theorem verification_gate (d : WebDriver) (g : Golden) (m m' : option Model)
  (h h' : Heap) (chosen : WebElement) (e : exn) :
  choose_candidate d g m h = (h', Ok (chosen, m')) →
  find_element d (generate_selector chosen) = Raise e →
  let failure := match e with
                 | NoSuchElementException => HealingVerificationFailed
                 | _ => e
                 end in
  self_heal_selector d g m h = (h', Raise failure) ∧
  (∀ original_xpath,
     find_element d original_xpath = Raise NoSuchElementException →
     get_updated_locator d original_xpath (Some g) m h = (h', Raise failure)) ∧
  (∀ d', title d' = title d → find_elements d' = find_elements d →
     ∀ el, find_element d' (generate_selector chosen) = Ok el →
     self_heal_selector d' g m h = (h', Ok (generate_selector chosen, chosen, m'))).
Proof.
  intros Hcc He failure.
  assert (Hv : verify d chosen = Raise failure).
  { unfold verify. rewrite He. subst failure. destruct e; reflexivity. }
  assert (Hself : self_heal_selector d g m h = (h', Raise failure)).
  { rewrite (self_heal_selector_chosen _ _ _ _ _ _ _ Hcc), Hv. reflexivity. }
  split; [exact Hself|]. split.
  - intros original_xpath Hx. unfold get_updated_locator. rewrite Hx.
    unfold mbind, Py_bind. rewrite Hself. reflexivity.
  - intros d' Ht Hf el Hel.
    assert (Hcc' : choose_candidate d' g m h = (h', Ok (chosen, m'))).
    { rewrite <- Hcc. unfold choose_candidate, get_all_candidates.
      rewrite Hf. reflexivity. }
    rewrite (self_heal_selector_chosen _ _ _ _ _ _ _ Hcc').
    unfold verify. rewrite Hel. reflexivity.
Qed.

(** C8, amended: a round with no candidate leaves the corpus and the
    files as they were.  In a round with at least one candidate, all of
    them scored, the corpus file and the model file are written only if
    the corpus, after the round's examples were appended, has at least 5
    entries; at 5 entries or more, once [fit] has returned a model, the
    whole corpus and that model are written, in that order; below 5
    entries the files and the list of writes are as before the round. *)
Theorem persistence_iff_retrain (d : WebDriver) (g : Golden) (m : option Model)
  (h : Heap) :
  let h' := fst (self_heal_selector d g m h) in
  (get_all_candidates d g = [] → h' = h) ∧
  (∀ c cs scored,
     get_all_candidates d g = c :: cs →
     score_candidates g (c :: cs) = Ok scored →
     length (training_labels h') = (length (training_labels h) + length (c :: cs))%nat ∧
     ((5 ≤ length (training_labels h'))%nat →
        ∀ clf, fit (training_data h') (training_labels h') = Ok clf →
          writes (disk h')
          = writes (disk h)
            ++ [WroteTrainingData (training_data h') (training_labels h');
                WroteModel clf] ∧
          training_file (disk h') = Some (training_data h', training_labels h') ∧
          model_file (disk h') = Some clf ∧
          golden_file (disk h') = golden_file (disk h)) ∧
     ((length (training_labels h') < 5)%nat → disk h' = disk h) ∧
     (writes (disk h') ≠ writes (disk h) → (5 ≤ length (training_labels h'))%nat)).
Proof.
  cbv zeta. split.
  { intros Hc. rewrite self_heal_selector_heap.
    rewrite choose_candidate_no_candidates by exact Hc. reflexivity. }
  intros c cs scored Hc Hs.
  destruct (round_heap d g m h c cs scored Hc Hs)
    as (best & _ & _ & Hheap & Hd & Hl).
  cbv zeta in Hheap.
  set (h1 := extended h (map fst scored) (make_labels best (length (c :: cs)))) in *.
  assert (Hd1 : training_data (fst (self_heal_selector d g m h)) = training_data h1)
    by exact Hd.
  assert (Hl1 : training_labels (fst (self_heal_selector d g m h)) = training_labels h1)
    by exact Hl.
  rewrite Hd1, Hl1, Hheap.
  assert (Hno : (length (training_labels h1) < 5)%nat →
                disk (fst (retrained m h1)) = disk h).
  { intros Hn. rewrite retrained_short by exact Hn. reflexivity. }
  split.
  { cbn [h1 extended training_labels].
    rewrite length_app, length_make_labels. reflexivity. }
  split; [|split; [exact Hno|]].
  - intros Hn clf Hfit. rewrite (retrained_enough m h1 clf Hn Hfit). cbn.
    rewrite <- app_assoc. repeat split.
  - intros Hw. destruct (le_lt_dec 5 (length (training_labels h1))) as [Hn|Hn];
      [exact Hn|]. rewrite (Hno Hn) in Hw. congruence.
Qed.


End RoundTheorems.

(** ** The corpus over a session *)

Section CorpusTheorems.
Context `{Classifier}.

(** As many feature vectors as labels. *)
Definition balanced (h : Heap) : Prop :=
  length (training_data h) = length (training_labels h).

Definition round_scorable (round : WebDriver * Golden) : Prop :=
  Forall (scorable round.2) (get_all_candidates round.1 round.2).

Definition round_size (round : WebDriver * Golden) : nat :=
  length (get_all_candidates round.1 round.2).

Lemma choose_candidate_cases (d : WebDriver) (g : Golden) (m : option Model)
  (h : Heap) :
  fst (choose_candidate d g m h) = h ∨
  ∃ scored best,
    score_candidates g (get_all_candidates d g) = Ok scored ∧
    training_data (fst (choose_candidate d g m h))
    = training_data h ++ map fst scored ∧
    training_labels (fst (choose_candidate d g m h))
    = training_labels h ++ make_labels best (length (get_all_candidates d g)) ∧
    (disk (fst (choose_candidate d g m h)) = disk h ∨
     ∃ clf, disk (fst (choose_candidate d g m h))
            = save_model_disk clf
                (save_training_data_disk
                   (training_data (fst (choose_candidate d g m h)))
                   (training_labels (fst (choose_candidate d g m h)))
                   (disk h))).
Proof.
  destruct (get_all_candidates d g) as [|c cs] eqn:Hc.
  - left. rewrite choose_candidate_no_candidates by exact Hc. reflexivity.
  - destruct (score_candidates g (c :: cs)) as [scored|e] eqn:Hs.
    + right.
      destruct (choose_candidate_scored d g m h c cs scored Hc Hs)
        as (best & _ & _ & Hheap & _).
      cbv zeta in Hheap. rewrite Hheap.
      set (h1 := extended h (map fst scored) (make_labels best (length (c :: cs)))).
      destruct (retrained_corpus m h1) as [Hd Hl].
      exists scored, best. rewrite Hd, Hl.
      split; [reflexivity|]. split; [reflexivity|]. split; [reflexivity|].
      destruct (retrained_disk m h1) as [Hsame | (clf & _ & _ & Hwrote)];
        [left; exact Hsame | right; exists clf; exact Hwrote].
    + left. rewrite <- Hc in Hs.
      destruct (choose_candidate_unscored d g m h e Hs) as [e' ->]. reflexivity.
Qed.

Lemma round_balanced (d : WebDriver) (g : Golden) (m : option Model) (h : Heap) :
  balanced h → balanced (fst (self_heal_selector d g m h)).
Proof.
  intros Hb. rewrite self_heal_selector_heap.
  destruct (choose_candidate_cases d g m h)
    as [-> | (scored & best & Hs & Hd & Hl & _)]; [exact Hb|].
  unfold balanced in *. rewrite Hd, Hl, !length_app, length_map, length_make_labels.
  rewrite (score_candidates_length _ _ _ Hs), Hb. reflexivity.
Qed.

Lemma round_growth (d : WebDriver) (g : Golden) (m : option Model) (h : Heap) :
  round_scorable (d, g) →
  length (training_data (fst (self_heal_selector d g m h)))
  = (length (training_data h) + round_size (d, g))%nat.
Proof.
  unfold round_scorable, round_size. cbn [fst snd]. intros Hsc.
  rewrite self_heal_selector_heap.
  destruct (get_all_candidates d g) as [|c cs] eqn:Hc.
  - rewrite choose_candidate_no_candidates by exact Hc. cbn. lia.
  - destruct (score_candidates_scorable g (c :: cs) Hsc) as [scored Hs].
    destruct (choose_candidate_scored d g m h c cs scored Hc Hs)
      as (best & _ & _ & Hheap & _).
    cbv zeta in Hheap. rewrite Hheap.
    destruct (retrained_corpus m
      (extended h (map fst scored) (make_labels best (length (c :: cs)))))
      as [-> _].
    cbn [extended training_data]. rewrite length_app, length_map.
    rewrite (score_candidates_length _ _ _ Hs). reflexivity.
Qed.

Lemma heal_rounds_lengths (rounds : list (WebDriver * Golden))
  (m : option Model) (h : Heap) :
  balanced h → Forall round_scorable rounds →
  balanced (fst (heal_rounds rounds m h)) ∧
  length (training_data (fst (heal_rounds rounds m h)))
  = (length (training_data h) + sum_list (round_size <$> rounds))%nat.
Proof.
  revert m h. induction rounds as [|[d g] rounds IH]; intros m h Hb Hall.
  - cbn. split; [exact Hb | lia].
  - inversion Hall as [|? ? Hr Hrest]; subst.
    pose proof (round_balanced d g m h Hb) as Hb'.
    pose proof (round_growth d g m h Hr) as Hg.
    cbn [heal_rounds fmap list_fmap sum_list].
    destruct (self_heal_selector d g m h) as [h' [[[sel ch] m']|e]];
      cbn [fst] in Hb', Hg.
    + destruct (IH m' h' Hb' Hrest) as [IHb IHl]. split; [exact IHb|].
      rewrite IHl, Hg. cbn. lia.
    + destruct (IH m h' Hb' Hrest) as [IHb IHl]. split; [exact IHb|].
      rewrite IHl, Hg. cbn. lia.
Qed.

Lemma capture_golden_if_missing_eq (d : WebDriver) (x : string) (a : Agent) :
  capture_golden_if_missing d x a
  = let golden_id := generate_golden_identifier d x None in
    match global_data a !! page_key a with
    | None => (a, Raise (KeyError (page_key a)))
    | Some page =>
        match page !! golden_id with
        | Some _ => (a, Ok golden_id)
        | None =>
            match find_element d x ≫= capture_element_attributes with
            | Ok golden => (record_golden golden_id golden a, Ok golden_id)
            | Raise _ => (a, Ok golden_id)
            end
        end
    end.
Proof.
  cbv beta iota zeta delta [capture_golden_if_missing mbind Py_bind].
  destruct (global_data a !! page_key a) as [page|]; [|reflexivity].
  destruct (page !! generate_golden_identifier d x None); [reflexivity|].
  destruct (result_bind _ _ _ _); reflexivity.
Qed.

Lemma capture_golden_if_missing_corpus (d : WebDriver) (x : string) (a : Agent) :
  training_data (heap (fst (capture_golden_if_missing d x a)))
  = training_data (heap a) ∧
  training_labels (heap (fst (capture_golden_if_missing d x a)))
  = training_labels (heap a).
Proof.
  rewrite capture_golden_if_missing_eq. cbv zeta.
  destruct (global_data a !! page_key a) as [page|]; [|split; reflexivity].
  destruct (page !! generate_golden_identifier d x None); [split; reflexivity|].
  destruct (find_element d x ≫= capture_element_attributes);
    split; reflexivity.
Qed.

Lemma get_updated_locator_balanced (d : WebDriver) (x : string)
  (g : option Golden) (m : option Model) (h : Heap) :
  balanced h → balanced (fst (get_updated_locator d x g m h)).
Proof.
  intros Hb. unfold get_updated_locator.
  destruct (find_element d x) as [el|e]; [exact Hb|].
  destruct e; try exact Hb.
  destruct g as [g|]; [|exact Hb].
  pose proof (round_balanced d g m h Hb) as Hb'.
  unfold mbind, Py_bind.
  destruct (self_heal_selector d g m h) as [h' [[[sel ch] m']|e]]; exact Hb'.
Qed.

Lemma locate_element_balanced (d : WebDriver) (x : string) (a : Agent) :
  balanced (heap a) → balanced (heap (fst (locate_element d x a))).
Proof.
  intros Hb.
  destruct (capture_golden_if_missing_corpus d x a) as [Hd Hl].
  assert (Hb1 : balanced (heap (fst (capture_golden_if_missing d x a))))
    by (unfold balanced; rewrite Hd, Hl; exact Hb).
  unfold locate_element, mbind, Py_bind.
  destruct (capture_golden_if_missing d x a) as [a1 [gid|e]];
    cbn [fst] in Hb1; [|exact Hb1].
  unfold gets. cbv beta iota.
  destruct (find_element d x) as [el|e]; [exact Hb1|].
  destruct e; try exact Hb1.
  unfold on_heap.
  pose proof (get_updated_locator_balanced d x
                (global_data a1 !! page_key a1 ≫= (.!! gid)) (model a1)
                (heap a1) Hb1) as Hb2.
  destruct (get_updated_locator d x _ (model a1) (heap a1))
    as [h2 [[[sel ch] m2]|e]]; cbn [fst] in Hb2; [|exact Hb2].
  unfold set_model, modify, lift. cbv beta iota.
  destruct (find_element d sel); exact Hb2.
Qed.

Lemma run_session_balanced (calls : list (WebDriver * string)) (a : Agent) :
  balanced (heap a) → balanced (heap (run_session calls a)).
Proof.
  revert a. induction calls as [|[d x] calls IH]; intros a Hb; cbn.
  - exact Hb.
  - apply IH, locate_element_balanced, Hb.
Qed.

(** C5: starting from a corpus with as many vectors as labels, after
    any number of the healing rounds of a session the corpus still has
    as many vectors as labels and has grown by the sum of the sizes of
    the rounds' candidate sets (every candidate being one the scorer can
    read); and the agent's corpus stays balanced over any sequence of
    [locate_element] calls. *)
Theorem corpus_length_invariant (rounds : list (WebDriver * Golden))
  (m : option Model) (h : Heap) :
  balanced h →
  Forall round_scorable rounds →
  (∀ n, let h' := fst (heal_rounds (take n rounds) m h) in
        length (training_data h') = length (training_labels h') ∧
        length (training_data h')
        = (length (training_data h) + sum_list (round_size <$> take n rounds))%nat) ∧
  (∀ calls a, heap a = h →
     length (training_data (heap (run_session calls a)))
     = length (training_labels (heap (run_session calls a)))).
Proof.
  intros Hb Hall. split.
  - intros n. apply heal_rounds_lengths; [exact Hb|].
    apply Forall_take. exact Hall.
  - intros calls a <-. apply run_session_balanced. exact Hb.
Qed.

End CorpusTheorems.

(** ** The agent's golden table *)

Section AgentTheorems.
Context `{Classifier}.

Lemma record_golden_lookup (golden_id : string) (golden : Golden) (a : Agent)
  (page : gmap string Golden) :
  global_data a !! page_key a = Some page →
  global_data (record_golden golden_id golden a) !! page_key a
  = Some (<[golden_id := golden]> page).
Proof.
  intros Hp. unfold record_golden. cbn [global_data].
  rewrite lookup_insert_eq, Hp. reflexivity.
Qed.

(** C6: capturing is idempotent and never overwrites.  When the table
    already has an entry under the identifier, the call returns the
    identifier and leaves the agent and the files as they were; whatever
    the call does, every entry the page's table had is still there
    unchanged; a call changes the agent only by adding an entry that was
    missing, and then the file holds the new table; and a second capture
    of the same locator on the same page changes nothing and returns
    what the first returned. *)
Theorem capture_is_idempotent (d : WebDriver) (original_xpath : string) (a : Agent) :
  let golden_id := generate_golden_identifier d original_xpath None in
  let a1 := fst (capture_golden_if_missing d original_xpath a) in
  (∀ page, global_data a !! page_key a = Some page →
           is_Some (page !! golden_id) →
           capture_golden_if_missing d original_xpath a = (a, Ok golden_id)) ∧
  (∀ page id golden,
     global_data a !! page_key a = Some page → page !! id = Some golden →
     page_key a1 = page_key a ∧
     global_data a1 !! page_key a ≫= (.!! id) = Some golden) ∧
  (a1 = a ∨
   ∃ page golden,
     global_data a !! page_key a = Some page ∧ page !! golden_id = None ∧
     a1 = record_golden golden_id golden a ∧
     golden_file (disk (heap a1)) = Some (global_data a1)) ∧
  capture_golden_if_missing d original_xpath a1
  = (a1, snd (capture_golden_if_missing d original_xpath a)).
Proof.
  cbv zeta.
  rewrite (capture_golden_if_missing_eq d original_xpath a). cbv zeta.
  set (golden_id := generate_golden_identifier d original_xpath None).
  destruct (global_data a !! page_key a) as [page|] eqn:Hpage.
  2:{ cbn [fst snd]. repeat split; try discriminate; [left; reflexivity|].
      rewrite capture_golden_if_missing_eq. cbv zeta. rewrite Hpage. reflexivity. }
  destruct (page !! golden_id) as [old|] eqn:Hold.
  { cbn [fst snd]. split; [reflexivity|]. split.
    - intros page' id golden [= <-] Hid. split; [reflexivity|].
      rewrite Hpage. exact Hid.
    - split; [left; reflexivity|].
      rewrite capture_golden_if_missing_eq. cbv zeta. fold golden_id.
      rewrite Hpage, Hold. reflexivity. }
  destruct (find_element d original_xpath ≫= capture_element_attributes)
    as [golden|e] eqn:Hcap.
  - cbn [fst snd]. split; [intros page' [= <-] [? ?]; congruence|].
    split; [|split].
    + intros page' id golden' [= <-] Hid. split; [reflexivity|].
      rewrite (record_golden_lookup _ _ _ _ Hpage). cbn.
      rewrite lookup_insert_ne; [exact Hid|].
      intros E. assert (page !! id = None) by (rewrite <- E; exact Hold).
      congruence.
    + right. exists page, golden. repeat split; assumption.
    + rewrite capture_golden_if_missing_eq. cbv zeta. fold golden_id.
      change (page_key (record_golden golden_id golden a)) with (page_key a).
      rewrite (record_golden_lookup _ _ _ _ Hpage), lookup_insert_eq.
      reflexivity.
  - cbn [fst snd]. split; [intros page' [= <-] [? ?]; congruence|].
    split; [|split].
    + intros page' id golden' [= <-] Hid. split; [reflexivity|].
      rewrite Hpage. exact Hid.
    + left. reflexivity.
    + rewrite capture_golden_if_missing_eq. cbv zeta. fold golden_id.
      rewrite Hpage, Hold, Hcap. reflexivity.
Qed.

(** The identifier the agent uses never depends on the element: it is
    the page key and the sanitized locator. *)
Lemma agent_identifier (d : WebDriver) (original_xpath : string) (a : Agent)
  (id : string) :
  snd (capture_golden_if_missing d original_xpath a) = Ok id →
  id = replace " " "_" (title d) +:+ "_golden_" +:+ sanitize_xpath original_xpath.
Proof.
  rewrite capture_golden_if_missing_eq. cbv zeta.
  destruct (global_data a !! page_key a) as [page|]; [|discriminate].
  destruct (page !! _).
  - intros [= <-]. reflexivity.
  - destruct (find_element d original_xpath ≫= capture_element_attributes);
      intros [= <-]; reflexivity.
Qed.

(** X17. Given the element, [generate_golden_identifier] follows the priority
    order: data-testid, then id or name, then tag and class, then tag
    and a short text, then the sanitized locator. *)
Lemma generate_golden_identifier_priority (d : WebDriver) (x : string)
  (e : WebElement) :
  let page_key := replace " " "_" (title d) in
  let id := generate_golden_identifier d x (Some e) in
  (∀ t, get_attribute e "data-testid" = Some t → truthy t = true →
        id = page_key +:+ "_golden_" +:+ t) ∧
  (truthy_opt (get_attribute e "data-testid") = false →
   (∀ i, get_attribute e "id" = Some i → truthy i = true →
         id = page_key +:+ "_golden_" +:+ i) ∧
   (truthy_opt (get_attribute e "id") = false →
    (∀ n, get_attribute e "name" = Some n → truthy n = true →
          id = page_key +:+ "_golden_" +:+ n) ∧
    (truthy_opt (get_attribute e "name") = false →
     (∀ cl, get_attribute e "class" = Some cl → truthy cl = true →
            id = page_key +:+ "_golden_" +:+ tag_name e +:+ "_"
                 +:+ replace " " "_" (strip cl)) ∧
     (truthy_opt (get_attribute e "class") = false →
      (truthy (strip (text e)) = true →
       (String.length (strip (text e)) < 20)%nat →
       id = page_key +:+ "_golden_" +:+ tag_name e +:+ "_"
            +:+ replace " " "_" (strip (text e))) ∧
      (truthy (strip (text e)) = false ∨
       (20 ≤ String.length (strip (text e)))%nat →
       id = page_key +:+ "_golden_" +:+ sanitize_xpath x))))).
Proof.
  cbv zeta. unfold generate_golden_identifier, or_else. split.
  { intros t -> Ht. cbn [truthy_opt]. rewrite Ht. reflexivity. }
  intros ->. split.
  { intros i -> Hi. cbn [truthy_opt]. rewrite Hi. cbn [truthy_opt].
    rewrite Hi. reflexivity. }
  intros ->. split.
  { intros n -> Hn. cbn [truthy_opt]. rewrite Hn. reflexivity. }
  intros ->. split.
  { intros cl -> Hcl. cbn [truthy_opt]. rewrite Hcl. reflexivity. }
  intros ->. split.
  - intros -> Hlen. apply Nat.ltb_lt in Hlen. rewrite Hlen. reflexivity.
  - intros [-> | Hlen]; [reflexivity|].
    apply Nat.ltb_ge in Hlen. rewrite Hlen, andb_false_r. reflexivity.
Qed.

End AgentTheorems.

(** ** Worked rounds *)

(** A stand-in for the library.  Its [fit] refuses with [ValueError], as
    [XGBClassifier.fit] does, a label vector in which every label is 1
    (the classes it is given must start at 0); the model it returns
    prefers the candidate the heuristic likes least: its class-1
    probability is [1 - f6]. *)
Definition inverse_classifier : Classifier :=
  {| Model := unit;
     fit := fun _ labels =>
       if forallb (Z.eqb 1) labels then Raise ValueError else Ok tt;
     predict_proba := fun _ row => (1 - nth 6 row 0)%Q |}.

Definition empty_disk : @Disk inverse_classifier := mkDisk None None None [].
Definition empty_heap : @Heap inverse_classifier := mkHeap [] [] empty_disk.

(** The golden [{tag: input, id: email, name: email}]. *)
Definition golden_login : Golden :=
  mkGolden "input" (Some "email") None (Some "email") None (Some "") None None.

Definition cand_email : WebElement :=
  mkWebElement "input" {[ "id" := "email-v2"; "name" := "email" ]} "" None.

Definition cand_phone : WebElement :=
  mkWebElement "input" {[ "id" := "phone"; "name" := "phone" ]} "" None.

(** A page on which the original locator no longer resolves: two inputs,
    each found by its id. *)
Definition page_two_inputs : WebDriver :=
  {| title := "Page 1";
     find_element := fun xpath =>
       if String.eqb xpath "//*[@id='email-v2']" then Ok cand_email
       else if String.eqb xpath "//*[@id='phone']" then Ok cand_phone
       else Raise NoSuchElementException;
     find_elements := fun tag =>
       if String.eqb tag "input" then [cand_email; cand_phone] else [] |}.

Definition scored_two_inputs : list (list Q * Z) :=
  [ ([0; 1; 1; 1; 0; 0; inject_Z 23 / 48; 0; 0; 0]%Q, 23);
    ([0; 0; 1; 1; 0; 0; inject_Z 13 / 48; 0; 0; 0]%Q, 13) ].

Lemma scored_two_inputs_eq :
  score_candidates golden_login [cand_email; cand_phone] = Ok scored_two_inputs.
Proof. reflexivity. Qed.

Lemma ranking_policy_witness :
  ∃ best chosen,
    first_max Z.le Z.lt [23; 13] best ∧
    [cand_email; cand_phone] !! best = Some chosen ∧
    self_heal_selector page_two_inputs golden_login None empty_heap
    = (fst (self_heal_selector page_two_inputs golden_login None empty_heap),
       new_selector ← verify page_two_inputs chosen;
       mret (new_selector, chosen, None)).
Proof.
  destruct (ranking_policy page_two_inputs golden_login None empty_heap
              cand_email [cand_phone] scored_two_inputs eq_refl eq_refl)
    as (best & Hmax & _ & Hlen & Hshort & _).
  destruct Hshort as (chosen & Hch & Heq).
  - rewrite Hlen. apply le_n_S, le_n_S, le_n_S, le_0_n.
  - exists best, chosen.
    split; [exact Hmax|]. split; [exact Hch | exact Heq].
Defined.

(** A page whose button lost its id between enumeration and the check:
    the id locator finds nothing, the text locator would. *)
Definition button_go : WebElement :=
  mkWebElement "button" {[ "id" := "go" ]} "Go" None.

Definition golden_button : Golden :=
  mkGolden "button" (Some "submit") None None None (Some "Go") None None.

Definition page_stale : WebDriver :=
  {| title := "Page 1";
     find_element := fun xpath =>
       if String.eqb xpath "//button[contains(text(), 'Go')]" then Ok button_go
       else Raise NoSuchElementException;
     find_elements := fun tag =>
       if String.eqb tag "button" then [button_go] else [] |}.

Lemma verification_gate_witness :
  generate_selector button_go = "//*[@id='go']" ∧
  find_element page_stale "//button[contains(text(), 'Go')]" = Ok button_go ∧
  snd (self_heal_selector page_stale golden_button None empty_heap)
  = Raise HealingVerificationFailed.
Proof.
  split; [reflexivity|]. split; [reflexivity|].
  destruct (verification_gate page_stale golden_button None None empty_heap
              (fst (choose_candidate page_stale golden_button None empty_heap))
              button_go NoSuchElementException eq_refl eq_refl) as [-> _].
  reflexivity.
Defined.

Definition prior_row : list Q := [0; 0; 1; 1; 0; 0; inject_Z 13 / 48; 0; 0; 0]%Q.

(** A corpus of three earlier examples. *)
Definition prior_heap : @Heap inverse_classifier :=
  mkHeap [prior_row; prior_row; prior_row] [1; 0; 0] empty_disk.

Definition healed_prior_heap : @Heap inverse_classifier :=
  fst (self_heal_selector page_two_inputs golden_login None prior_heap).

Definition healed_empty_heap : @Heap inverse_classifier :=
  fst (self_heal_selector page_two_inputs golden_login None empty_heap).

Lemma persistence_iff_retrain_witness :
  (length (training_labels healed_prior_heap) = 5%nat ∧
   writes (disk healed_prior_heap)
   = [WroteTrainingData (training_data healed_prior_heap)
                        (training_labels healed_prior_heap);
      WroteModel (H:=inverse_classifier) tt]) ∧
  (length (training_labels healed_empty_heap) = 2%nat ∧
   disk healed_empty_heap = empty_disk).
Proof.
  split.
  - destruct (persistence_iff_retrain page_two_inputs golden_login None prior_heap)
      as [_ Hround].
    destruct (Hround cand_email [cand_phone] scored_two_inputs eq_refl eq_refl)
      as (Hlen & Hyes & _).
    split; [exact Hlen|].
    destruct (Hyes (eq_ind_r (le 5) (le_n 5) Hlen) tt eq_refl) as (Hw & _).
    exact Hw.
  - destruct (persistence_iff_retrain page_two_inputs golden_login None empty_heap)
      as [_ Hround].
    destruct (Hround cand_email [cand_phone] scored_two_inputs eq_refl eq_refl)
      as (Hlen & _ & Hno & _).
    split; [exact Hlen|].
    apply Hno. rewrite Hlen. apply le_n_S, le_n_S, le_n_S, le_0_n.
Defined.

(** C8, as the claim states it, fails: a corpus of 5 entries, a page with
    no element of the golden's tag; the round appends nothing, so the
    corpus still has 5 entries after it, and the round writes nothing. *)
Lemma persistence_counterexample :
  length (training_labels healed_prior_heap) = 5%nat ∧
  get_all_candidates page_two_inputs golden_button = [] ∧
  fst (self_heal_selector (H:=inverse_classifier) page_two_inputs golden_button
         (Some tt) healed_prior_heap)
  = healed_prior_heap ∧
  snd (self_heal_selector (H:=inverse_classifier) page_two_inputs golden_button
         (Some tt) healed_prior_heap)
  = Raise (NoCandidatesFound "button").
Proof. repeat split. Qed.


Definition two_rounds : list (WebDriver * Golden) :=
  [(page_two_inputs, golden_login); (page_stale, golden_button)].

Lemma two_rounds_scorable : Forall round_scorable two_rounds.
Proof. repeat constructor; intros E; discriminate E. Defined.

Lemma corpus_length_invariant_witness :
  length (training_data (fst (heal_rounds two_rounds (H:=inverse_classifier) None empty_heap)))
  = 3%nat ∧
  length (training_labels (fst (heal_rounds two_rounds (H:=inverse_classifier) None empty_heap)))
  = 3%nat.
Proof.
  destruct (corpus_length_invariant two_rounds None empty_heap eq_refl
              two_rounds_scorable) as [Hn _].
  destruct (Hn 2%nat) as [Hbal Hsum].
  split; [exact Hsum | exact (eq_trans (eq_sym Hbal) Hsum)].
Defined.

(** The page of the form: the email input carries a [data-testid]. *)
Definition input_with_testid : WebElement :=
  mkWebElement "input" {[ "id" := "email"; "data-testid" := "email-field" ]} "" None.

Definition page_form : WebDriver :=
  {| title := "Page 1";
     find_element := fun xpath =>
       if String.eqb xpath "//input[@id='email']" then Ok input_with_testid
       else Raise NoSuchElementException;
     find_elements := fun tag =>
       if String.eqb tag "input" then [input_with_testid] else [] |}.

Definition fresh_agent : @Agent inverse_classifier := init page_form empty_disk.

Definition captured_agent : @Agent inverse_classifier :=
  fst (capture_golden_if_missing page_form "//input[@id='email']" fresh_agent).

(** C7, as the claim states it, fails: the agent captures an input that
    has a [data-testid].  By the priority order the identifier would be
    [Page_1_golden_email-field]; the agent asks for the identifier
    without the element and stores the snapshot under the sanitized
    locator, and nothing under the data-testid identifier. *)
Lemma agent_identifier_ignores_testid :
  get_attribute input_with_testid "data-testid" = Some "email-field" ∧
  generate_golden_identifier page_form "//input[@id='email']" (Some input_with_testid)
  = "Page_1_golden_email-field" ∧
  snd (capture_golden_if_missing page_form "//input[@id='email']" fresh_agent)
  = Ok "Page_1_golden___inputid='email'" ∧
  (global_data captured_agent !! "Page_1" ≫= (.!! "Page_1_golden___inputid='email'"))
  = Some (mkGolden "input" (Some "email") None None (Some "email-field")
                   (Some "") None None) ∧
  (global_data captured_agent !! "Page_1" ≫= (.!! "Page_1_golden_email-field"))
  = None.
Proof. repeat split. Qed.

(** * Further properties of the code *)

(** ** The scorer and the extractor on every input *)

(** X1. [compute_similarity] either returns a score between 0 and 48 or
    raises [AttributeError]; it raises exactly when the candidate passes
    the tag gate, the golden holds a non-empty innerHTML, and the
    candidate's innerHTML reads as [None]. *)
Theorem compute_similarity_outcome (g : Golden) (c : WebElement) :
  (∀ s, compute_similarity g c = Ok s → 0 ≤ s ≤ 48) ∧
  (∀ e, compute_similarity g c = Raise e → e = AttributeError) ∧
  (compute_similarity g c = Raise AttributeError ↔
   lower (tag_name c) = lower (g_tag g) ∧
   truthy_opt (g_innerHTML g) = true ∧
   get_attribute c "innerHTML" = None).
Proof.
  split; [intros s; apply compute_similarity_bounds|].
  destruct (String.eqb (lower (tag_name c)) (lower (g_tag g))) eqn:Etag.
  - pose proof Etag as Htag. apply String.eqb_eq in Htag.
    destruct (truthy_opt (g_innerHTML g)) eqn:Et.
    + destruct (get_attribute c "innerHTML") as [h|] eqn:Eh.
      * rewrite compute_similarity_sum by (try intros _; eauto).
        split; [discriminate|]. split; [discriminate|].
        intros (_ & _ & [=]).
      * assert (E : compute_similarity g c = Raise AttributeError).
        { unfold compute_similarity. rewrite Etag, Et, Eh. reflexivity. }
        rewrite E. split; [intros e [= <-]; reflexivity|].
        split; [intros _; repeat split; assumption | reflexivity].
    + rewrite compute_similarity_sum by (try (intros E; congruence); eauto).
      split; [discriminate|]. split; [discriminate|].
      intros (_ & [=] & _).
  - rewrite compute_similarity_tag_mismatch by exact Etag.
    split; [discriminate|]. split; [discriminate|].
    intros (Htag & _). apply String.eqb_neq in Etag. contradiction.
Qed.

Lemma flag_binary (b : bool) : flag b = 0%Q ∨ flag b = 1%Q.
Proof. destruct b; [right | left]; reflexivity. Qed.

(** X2. [extract_features] raises what [compute_similarity] raises, and
    returns when it returns: then the vector has ten entries, the seventh
    is the score over 48 and lies between 0 and 1, and each of the other
    nine is 0 or 1. *)
Theorem extract_features_shape (g : Golden) (c : WebElement) :
  (∀ e, compute_similarity g c = Raise e → extract_features g c = Raise e) ∧
  (∀ s, compute_similarity g c = Ok s →
     ∃ fs, extract_features g c = Ok fs ∧
           length fs = 10%nat ∧
           fs !! 6%nat = Some (inject_Z s / 48)%Q ∧
           (0 <= inject_Z s / 48 <= 1)%Q ∧
           (∀ i x, i ≠ 6%nat → fs !! i = Some x → x = 0%Q ∨ x = 1%Q)).
Proof.
  split.
  - intros e He. unfold extract_features. rewrite He. reflexivity.
  - intros s Hs. pose proof (compute_similarity_bounds g c s Hs) as Hb.
    assert (Hq : (0 <= inject_Z s / 48 <= 1)%Q).
    { unfold Qdiv, Qmult, Qinv, Qle, inject_Z. cbn. lia. }
    unfold extract_features. rewrite Hs.
    assert (Hf5 : ∀ q : Q,
      q = (if truthy_opt (g_innerHTML g)
           then match get_attribute c "innerHTML" with
                | Some h => flag (innerHTML_contained g h)
                | None => 0%Q
                end
           else 0%Q) → q = 0%Q ∨ q = 1%Q).
    { intros q ->. destruct (truthy_opt _); [|left; reflexivity].
      destruct (get_attribute c "innerHTML"); [apply flag_binary | left; reflexivity]. }
    destruct (parent c) as [p|], (g_parent g) as [gp|];
      (eexists; split; [reflexivity|]; split; [reflexivity|];
       split; [reflexivity|]; split; [exact Hq|];
       intros i x Hi Hx;
       do 10 (destruct i as [|i];
              [cbn in Hx; injection Hx as <-;
               first [congruence | apply flag_binary | apply Hf5; reflexivity
                     | left; reflexivity] |]);
       discriminate Hx).
Qed.

(** X3. An element scored against its own snapshot gets 33 points for
    its tag, id, name, data-testid and class, 3 more when its text is not
    empty, 2 more when it is a [div] with a non-empty innerHTML, and 10 more
    when it has a parent. *)
Theorem self_similarity (e : WebElement) (g : Golden) :
  capture_element_attributes e = Ok g →
  compute_similarity g e
  = Ok (33 + (if truthy (strip (text e)) then 3 else 0)
           + (if truthy_opt (g_innerHTML g) then 2 else 0)
           + (match parent e with Some _ => 10 | None => 0 end)).
Proof.
  intros Hcap.
  destruct (capture_same_attributes e g Hcap)
    as (Htag & Hid & Hname & Htid & Hcls & Htxt & Hinner & Hpar).
  assert (Hgp : g_parent g = None → parent e = None).
  { revert Hcap. unfold capture_element_attributes.
    destruct (String.eqb _ "div"); [destruct (get_attribute e "innerHTML")|];
      try discriminate; intros [= <-]; cbn; destruct (parent e); congruence. }
  rewrite compute_similarity_sum.
  2:{ rewrite Htag. reflexivity. }
  2:{ intros Ht. destruct (g_innerHTML g) as [h|]; [|discriminate].
      destruct (Hinner h eq_refl) as (h' & -> & _). eauto. }
  f_equal.
  unfold id_points, name_points, testid_points, class_points, text_points,
    innerHTML_points, parent_points, text_contained.
  rewrite Hid, Hname, Htid, Hcls, Htxt, !eqb_opt_refl. cbn [truthy_opt points].
  rewrite contains_refl, andb_true_r, andb_diag.
  assert (Hi : (if truthy_opt (g_innerHTML g)
                then match get_attribute e "innerHTML" with
                     | Some h => points (innerHTML_contained g (strip h)) 2
                     | None => 0
                     end
                else 0) = if truthy_opt (g_innerHTML g) then 2 else 0).
  { destruct (g_innerHTML g) as [h|] eqn:Eh; [|reflexivity].
    destruct (Hinner h eq_refl) as (h' & -> & <-).
    unfold innerHTML_contained. rewrite Eh, contains_refl, andb_true_r.
    cbn [truthy_opt]. destruct (truthy (strip h')); reflexivity. }
  rewrite Hi.
  assert (Hp : match parent e with
               | Some p =>
                   match g_parent g with
                   | Some gp => parent_tag_points gp p + parent_id_points gp p
                                + parent_class_points gp p
                   | None => 0
                   end
               | None => 0
               end = match parent e with Some _ => 10 | None => 0 end).
  { destruct (g_parent g) as [gp|] eqn:Egp.
    - destruct (Hpar gp eq_refl) as (p & -> & Hptag & Hpid & Hpcls).
      unfold parent_tag_points, parent_id_points, parent_class_points.
      rewrite Hptag, Hpid, Hpcls, String.eqb_refl, !eqb_opt_refl. reflexivity.
    - rewrite (Hgp eq_refl). reflexivity. }
  rewrite Hp. unfold points. destruct (truthy (strip (text e))); lia.
Qed.

Lemma self_similarity_witness :
  compute_similarity golden_email e_email = Ok 43 ∧
  compute_similarity golden_banner e_banner = Ok 48.
Proof.
  split.
  - exact (self_similarity e_email golden_email eq_refl).
  - exact (self_similarity e_banner golden_banner eq_refl).
Defined.

(** X4. [capture_element_attributes] raises only for a [div] whose
    innerHTML reads as [None]; otherwise it returns a snapshot that agrees
    with the element on every field, holds an innerHTML exactly for a
    [div], and holds a parent exactly when the element has one. *)
Theorem capture_element_attributes_outcome (e : WebElement) :
  (capture_element_attributes e = Raise AttributeError ↔
   lower (tag_name e) = "div" ∧ get_attribute e "innerHTML" = None) ∧
  (∀ x, capture_element_attributes e = Raise x → x = AttributeError) ∧
  (∀ g, capture_element_attributes e = Ok g →
     same_attributes g e ∧
     (is_Some (g_innerHTML g) ↔ lower (tag_name e) = "div") ∧
     (is_Some (g_parent g) ↔ is_Some (parent e))).
Proof.
  unfold capture_element_attributes.
  destruct (String.eqb_spec (lower (tag_name e)) "div") as [Hd|Hd].
  - destruct (get_attribute e "innerHTML") as [h|] eqn:Eh.
    + split; [split; [discriminate | intros [_ [=]]]|].
      split; [discriminate|].
      intros g Hg. split.
      * apply capture_same_attributes. unfold capture_element_attributes.
        rewrite Hd, Eh. exact Hg.
      * injection Hg as <-. cbn. split; [split; eauto|].
        destruct (parent e); split; intros [? [=]]; eauto.
    + split; [split; [auto | reflexivity]|].
      split; [intros x [= <-]; reflexivity | discriminate].
  - split; [split; [discriminate | intros [? _]; contradiction]|].
    split; [discriminate|].
    intros g Hg. split.
    + apply capture_same_attributes. unfold capture_element_attributes.
      destruct (String.eqb_spec (lower (tag_name e)) "div"); [contradiction|].
      exact Hg.
    + injection Hg as <-. cbn. split.
      * split; [intros [? [=]] | contradiction].
      * destruct (parent e); split; intros [? [=]]; eauto.
Qed.

(** ** Locators and identifiers *)

(** X5. [generate_selector] takes the first rule that applies, in the
    order id, data-testid, placeholder, visible text, class, bare tag; and
    every locator it builds starts with [//] except the one of the class
    rule, which is the tag followed by the dotted class tokens. *)
Theorem generate_selector_priority (c : WebElement) :
  let sel := generate_selector c in
  ((∀ i, get_attribute c "id" = Some i → truthy i = true →
         sel = "//*[@id='" +:+ i +:+ "']") ∧
  (truthy_opt (get_attribute c "id") = false →
   (∀ t, get_attribute c "data-testid" = Some t → truthy t = true →
         sel = "//*[@data-testid='" +:+ t +:+ "']") ∧
   (truthy_opt (get_attribute c "data-testid") = false →
    (∀ p, get_attribute c "placeholder" = Some p → truthy p = true →
          sel = "//" +:+ tag_name c +:+ "[@placeholder='" +:+ p +:+ "']") ∧
    (truthy_opt (get_attribute c "placeholder") = false →
     (truthy (strip (text c)) = true →
      sel = "//" +:+ tag_name c +:+ "[contains(text(), '"
            +:+ strip (text c) +:+ "')]") ∧
     (truthy (strip (text c)) = false →
      (∀ cl, get_attribute c "class" = Some cl → truthy cl = true →
             sel = tag_name c +:+ "." +:+ join "." (split cl)) ∧
      (truthy_opt (get_attribute c "class") = false →
       sel = "//" +:+ tag_name c)))))) ∧
  (String.prefix "//" sel = true ∨
   ∃ cl, get_attribute c "class" = Some cl ∧
         sel = tag_name c +:+ "." +:+ join "." (split cl)).
Proof.
  cbv zeta. unfold generate_selector. split.
  - split.
    { intros i -> Hi. cbn [truthy_opt default]. rewrite Hi. reflexivity. }
    intros ->. split.
    { intros t -> Ht. cbn [truthy_opt default]. rewrite Ht. reflexivity. }
    intros ->. split.
    { intros p -> Hp. cbn [truthy_opt default]. rewrite Hp. reflexivity. }
    intros ->. split.
    { intros ->. reflexivity. }
    intros ->. split.
    { intros cl -> Hcl. cbn [truthy_opt default]. rewrite Hcl. reflexivity. }
    intros ->. reflexivity.
  - destruct (truthy_opt (get_attribute c "id")); [left; reflexivity|].
    destruct (truthy_opt (get_attribute c "data-testid")); [left; reflexivity|].
    destruct (truthy_opt (get_attribute c "placeholder"));
      [left; apply prefix_app|].
    destruct (truthy (strip (text c))); [left; apply prefix_app|].
    destruct (get_attribute c "class") as [cl|]; [|left; apply prefix_app].
    cbn [truthy_opt default].
    destruct (truthy cl); [right; eauto | left; apply prefix_app].
Qed.

(** The characters of a string. *)
Definition chars (s : string) : list ascii := list_ascii_of_string s.

Lemma chars_append (s t : string) : chars (s +:+ t) = chars s ++ chars t.
Proof.
  unfold chars. induction s as [|a s IH]; [reflexivity|].
  change (String a s +:+ t) with (String a (s +:+ t)). cbn. rewrite IH.
  reflexivity.
Qed.

(** What [replace] leaves: characters of the input other than [old], and
    characters of [new]. *)
Lemma chars_replace (old : ascii) (new s : string) (c : ascii) :
  c ∈ chars (replace old new s) →
  (c ≠ old ∧ c ∈ chars s) ∨ c ∈ chars new.
Proof.
  induction s as [|a s IH]; cbn [replace].
  - intros Hc. cbn in Hc. apply elem_of_nil in Hc. contradiction.
  - destruct (Ascii.eqb_spec a old) as [->|Hne].
    + rewrite chars_append. intros Hc. apply elem_of_app in Hc as [Hc|Hc].
      * right. exact Hc.
      * destruct (IH Hc) as [[? ?]|?]; [left | right; assumption].
        split; [assumption|]. cbn. apply elem_of_cons. right. assumption.
    + intros Hc. change (chars (String a (replace old new s)))
        with (a :: chars (replace old new s)) in Hc.
      apply elem_of_cons in Hc as [->|Hc].
      * left. split; [exact Hne|]. cbn. apply elem_of_cons. left. reflexivity.
      * destruct (IH Hc) as [[? ?]|?]; [left | right; assumption].
        split; [assumption|]. cbn. apply elem_of_cons. right. assumption.
Qed.

Lemma chars_replace_delete (old : ascii) (s : string) (c : ascii) :
  c ∈ chars (replace old "" s) → c ≠ old ∧ c ∈ chars s.
Proof.
  intros Hc. destruct (chars_replace old "" s c Hc) as [?|Hn]; [assumption|].
  cbn in Hn. apply elem_of_nil in Hn. contradiction.
Qed.

Lemma chars_replace_underscore (old : ascii) (s : string) (c : ascii) :
  old ≠ "_"%char → c ∈ chars (replace old "_" s) → c ≠ old.
Proof.
  intros Hold Hc.
  destruct (chars_replace old "_" s c Hc) as [[? _]|Hn]; [assumption|].
  cbn in Hn. apply list_elem_of_singleton in Hn. subst c. congruence.
Qed.

(** X6. The page key holds no space, and the sanitized locator holds
    none of the characters [/], [[], []] and [@]. *)
Theorem sanitized_characters (d : WebDriver) (original_xpath : string) (c : ascii) :
  (c ∈ chars (replace " " "_" (title d)) → c ≠ " "%char) ∧
  (c ∈ chars (sanitize_xpath original_xpath) →
   c ≠ "/"%char ∧ c ≠ "["%char ∧ c ≠ "]"%char ∧ c ≠ "@"%char).
Proof.
  split; [apply chars_replace_underscore; discriminate|].
  unfold sanitize_xpath. intros H1.
  apply chars_replace_delete in H1 as [Hat H2].
  apply chars_replace_delete in H2 as [Hrb H3].
  apply chars_replace_delete in H3 as [Hlb H4].
  apply chars_replace_underscore in H4; [auto | discriminate].
Qed.

Section IdentifierTheorems.
Context `{Classifier}.

(** X7. Whatever the element looks like, the identifier that
    [capture_golden_if_missing] returns is the page key of the page the
    driver shows, [_golden_], and the sanitized locator; the call raises
    only [KeyError], and only when the agent's table lacks the agent's own
    page. *)
Theorem agent_identifier_form (d : WebDriver) (original_xpath : string) (a : Agent) :
  snd (capture_golden_if_missing d original_xpath a)
  = match global_data a !! page_key a with
    | Some _ => Ok (replace " " "_" (title d) +:+ "_golden_"
                    +:+ sanitize_xpath original_xpath)
    | None => Raise (KeyError (page_key a))
    end.
Proof.
  rewrite capture_golden_if_missing_eq. cbv zeta.
  destruct (global_data a !! page_key a) as [page|]; [|reflexivity].
  destruct (page !! _); [reflexivity|].
  destruct (find_element d original_xpath ≫= capture_element_attributes);
    reflexivity.
Qed.

End IdentifierTheorems.

(** ** More on the healing round *)

Section RoundExtras.
Context `{Classifier}.

(** X8. With no element of the golden's tag on the page, the round
    raises the no-candidates error and leaves the corpus and the files as
    they were, and so does the resolver when the original locator finds
    nothing. *)
Theorem no_candidates_raises (d : WebDriver) (g : Golden) (m : option Model)
  (h : Heap) :
  find_elements d (g_tag g) = [] →
  self_heal_selector d g m h = (h, Raise (NoCandidatesFound (g_tag g))) ∧
  (∀ original_xpath,
     find_element d original_xpath = Raise NoSuchElementException →
     get_updated_locator d original_xpath (Some g) m h
     = (h, Raise (NoCandidatesFound (g_tag g)))).
Proof.
  intros Hnone.
  assert (Hs : self_heal_selector d g m h = (h, Raise (NoCandidatesFound (g_tag g)))).
  { unfold self_heal_selector, mbind, Py_bind.
    rewrite choose_candidate_no_candidates by exact Hnone. reflexivity. }
  split; [exact Hs|].
  intros x Hx. unfold get_updated_locator. rewrite Hx.
  unfold mbind, Py_bind. rewrite Hs. reflexivity.
Qed.

(** [h'] holds the corpus of [h] followed by more examples. *)
Definition extends (h h' : Heap) : Prop :=
  ∃ fs ls, training_data h' = training_data h ++ fs ∧
           training_labels h' = training_labels h ++ ls.

Lemma extends_refl (h : Heap) : extends h h.
Proof. exists [], []. rewrite !app_nil_r. split; reflexivity. Qed.

Lemma extends_trans (h1 h2 h3 : Heap) :
  extends h1 h2 → extends h2 h3 → extends h1 h3.
Proof.
  intros (fs & ls & Hd & Hl) (fs' & ls' & Hd' & Hl').
  exists (fs ++ fs'), (ls ++ ls'). rewrite Hd', Hl', Hd, Hl, !app_assoc.
  split; reflexivity.
Qed.

Lemma round_extends (d : WebDriver) (g : Golden) (m : option Model) (h : Heap) :
  extends h (fst (self_heal_selector d g m h)).
Proof.
  rewrite self_heal_selector_heap.
  destruct (choose_candidate_cases d g m h)
    as [-> | (scored & best & _ & Hd & Hl & _)]; [apply extends_refl|].
  eexists _, _. split; eassumption.
Qed.

Lemma get_updated_locator_extends (d : WebDriver) (x : string)
  (g : option Golden) (m : option Model) (h : Heap) :
  extends h (fst (get_updated_locator d x g m h)).
Proof.
  unfold get_updated_locator.
  destruct (find_element d x) as [el|e]; [apply extends_refl|].
  destruct e; try apply extends_refl.
  destruct g as [g|]; [|apply extends_refl].
  pose proof (round_extends d g m h) as He.
  unfold mbind, Py_bind.
  destruct (self_heal_selector d g m h) as [h' [[[sel ch] m']|e]]; exact He.
Qed.

(** What [locate_element] does to the agent, step by step. *)
Lemma locate_element_eq (d : WebDriver) (x : string) (a : Agent) :
  locate_element d x a
  = match capture_golden_if_missing d x a with
    | (a1, Raise e) => (a1, Raise e)
    | (a1, Ok golden_identifier) =>
        let golden := global_data a1 !! page_key a1 ≫= (.!! golden_identifier) in
        match find_element d x with
        | Ok element => (a1, Ok element)
        | Raise NoSuchElementException =>
            match get_updated_locator d x golden (model a1) (heap a1) with
            | (h2, Ok (new_locator, _, m2)) =>
                ({| page_key := page_key a1; global_data := global_data a1;
                    model := m2; heap := h2 |},
                 find_element d new_locator)
            | (h2, Raise e) =>
                ({| page_key := page_key a1; global_data := global_data a1;
                    model := model a1; heap := h2 |}, Raise e)
            end
        | Raise e => (a1, Raise e)
        end
    end.
Proof.
  unfold locate_element, mbind, Py_bind.
  destruct (capture_golden_if_missing d x a) as [a1 [gid|e]]; [|reflexivity].
  unfold gets. cbv beta iota zeta.
  destruct (find_element d x) as [el|e]; [reflexivity|].
  destruct e; try reflexivity.
  unfold on_heap.
  destruct (get_updated_locator d x _ (model a1) (heap a1))
    as [h2 [[[sel ch] m2]|e]]; reflexivity.
Qed.

Lemma locate_element_extends (d : WebDriver) (x : string) (a : Agent) :
  extends (heap a) (heap (fst (locate_element d x a))).
Proof.
  destruct (capture_golden_if_missing_corpus d x a) as [Hd Hl].
  assert (H1 : extends (heap a) (heap (fst (capture_golden_if_missing d x a)))).
  { exists [], []. rewrite Hd, Hl, !app_nil_r. split; reflexivity. }
  rewrite locate_element_eq.
  destruct (capture_golden_if_missing d x a) as [a1 [gid|e]];
    cbn [fst] in H1; [|exact H1].
  cbv zeta. destruct (find_element d x) as [el|e]; [exact H1|].
  destruct e; try exact H1.
  pose proof (get_updated_locator_extends d x
                (global_data a1 !! page_key a1 ≫= (.!! gid)) (model a1) (heap a1))
    as H2.
  destruct (get_updated_locator d x _ (model a1) (heap a1))
    as [h2 [[[sel ch] m2]|e]]; cbn [fst heap] in *;
    exact (extends_trans _ _ _ H1 H2).
Qed.

(** X9. The corpus is append-only: a healing round, whatever its
    outcome, leaves the earlier vectors and labels in place at the front of
    the lists, and so does any sequence of [locate_element] calls. *)
Theorem corpus_append_only :
  (∀ d g m h,
     ∃ fs ls,
       training_data (fst (self_heal_selector d g m h)) = training_data h ++ fs ∧
       training_labels (fst (self_heal_selector d g m h)) = training_labels h ++ ls) ∧
  (∀ calls a,
     ∃ fs ls,
       training_data (heap (run_session calls a)) = training_data (heap a) ++ fs ∧
       training_labels (heap (run_session calls a)) = training_labels (heap a) ++ ls).
Proof.
  split.
  - intros d g m h. apply round_extends.
  - intros calls. induction calls as [|[d x] calls IH]; intros a.
    + apply extends_refl.
    + cbn [run_session].
      exact (extends_trans _ _ _ (locate_element_extends d x a) (IH _)).
Qed.

Lemma healed_facts (d : WebDriver) (g : Golden) (m m' : option Model)
  (h h' : Heap) (new_selector : string) (chosen : WebElement) :
  self_heal_selector d g m h = (h', Ok (new_selector, chosen, m')) →
  chosen ∈ find_elements d (g_tag g) ∧
  new_selector = generate_selector chosen ∧
  (∃ el, find_element d new_selector = Ok el) ∧
  (is_Some m' ↔ is_Some m ∨ (5 ≤ length (training_labels h'))%nat).
Proof.
  intros Hres.
  destruct (get_all_candidates d g) as [|c cs] eqn:Hc.
  { unfold self_heal_selector, mbind, Py_bind in Hres.
    rewrite choose_candidate_no_candidates in Hres by exact Hc. discriminate. }
  destruct (score_candidates g (c :: cs)) as [scored|e] eqn:Hs.
  2:{ rewrite <- Hc in Hs.
      destruct (choose_candidate_unscored d g m h e Hs) as [e' He'].
      unfold self_heal_selector, mbind, Py_bind in Hres.
      rewrite He' in Hres. discriminate. }
  destruct (choose_candidate_scored d g m h c cs scored Hc Hs)
    as (best & _ & _ & _ & Hraise & Hok).
  cbv zeta in Hraise, Hok.
  set (h1 := extended h (map fst scored) (make_labels best (length (c :: cs)))) in *.
  destruct (retrained_corpus m h1) as [_ Hl].
  destruct (retrained m h1) as [h2 [m2|e]] eqn:Hr; cbn [fst snd] in *.
  2:{ specialize (Hraise e eq_refl).
      unfold self_heal_selector, mbind, Py_bind in Hres.
      destruct (choose_candidate d g m h) as [hh r]. cbn [snd] in Hraise.
      subst r. discriminate. }
  destruct (Hok m2 eq_refl) as (k & ch & _ & Hch & Hcc).
  rewrite (self_heal_selector_chosen _ _ _ _ _ _ _ Hcc) in Hres.
  unfold verify in Hres.
  destruct (find_element d (generate_selector ch)) as [el|e] eqn:Hf.
  2:{ destruct e; discriminate. }
  injection Hres as Hh Hsel Hchosen Hm. subst.
  split.
  { unfold get_all_candidates in Hc. rewrite Hc.
    eapply list_elem_of_lookup_2. exact Hch. }
  split; [reflexivity|]. split; [eauto|].
  rewrite Hl.
  destruct (le_lt_dec 5 (length (training_labels h1))) as [Hn|Hn].
  - destruct (fit (training_data h1) (training_labels h1)) as [clf|e] eqn:Hfit.
    + rewrite (retrained_enough m h1 clf Hn Hfit) in Hr.
      injection Hr as _ <-. split; eauto.
    + rewrite (retrained_failed m h1 e Hn Hfit) in Hr. discriminate.
  - rewrite (retrained_short m h1 Hn) in Hr. injection Hr as _ <-.
    split; [auto | intros [?|?]; [assumption | lia]].
Qed.

(** X10. What a round that returns has established: the element it
    returns is one of the elements of the golden's tag on the page, the
    locator it returns is the one synthesized for that element, the page
    resolves that locator, and the round returns a model exactly when it
    was handed one or the corpus has reached 5 entries. *)
Theorem healed_result (d : WebDriver) (g : Golden) (m m' : option Model)
  (h h' : Heap) (new_selector : string) (chosen : WebElement) :
  self_heal_selector d g m h = (h', Ok (new_selector, chosen, m')) →
  chosen ∈ find_elements d (g_tag g) ∧
  new_selector = generate_selector chosen ∧
  (∃ el, find_element d new_selector = Ok el) ∧
  (is_Some m' ↔ is_Some m ∨ (5 ≤ length (training_labels h'))%nat).
Proof. apply healed_facts. Qed.

(** X11. When the original locator resolves, the resolver returns it
    with no element and leaves the corpus, the files and the model alone;
    and [locate_element] returns the element found, its only effect being
    the capture of the golden. *)
Theorem original_locator_resolves (d : WebDriver) (original_xpath : string)
  (element : WebElement) :
  find_element d original_xpath = Ok element →
  (∀ g m h, get_updated_locator d original_xpath g m h
            = (h, Ok (original_xpath, None, m))) ∧
  (∀ a, is_Some (global_data a !! page_key a) →
        locate_element d original_xpath a
        = (fst (capture_golden_if_missing d original_xpath a), Ok element)).
Proof.
  intros Hf. split.
  - intros g m h. unfold get_updated_locator. rewrite Hf. reflexivity.
  - intros a [page Hpage]. rewrite locate_element_eq.
    rewrite (capture_golden_if_missing_eq d original_xpath a). cbv zeta.
    rewrite Hpage.
    destruct (page !! _); [cbn; rewrite Hf; reflexivity|].
    destruct (find_element d original_xpath ≫= capture_element_attributes);
      cbn; rewrite Hf; reflexivity.
Qed.

(** X12. A locator that does not resolve and was never captured cannot
    be healed: [locate_element] raises [AttributeError] and leaves the
    agent and the files as they were. *)
Theorem unseen_locator_fails (d : WebDriver) (original_xpath : string) (a : Agent)
  (page : gmap string Golden) :
  find_element d original_xpath = Raise NoSuchElementException →
  global_data a !! page_key a = Some page →
  page !! generate_golden_identifier d original_xpath None = None →
  locate_element d original_xpath a = (a, Raise AttributeError).
Proof.
  intros Hf Hpage Hid. rewrite locate_element_eq.
  rewrite (capture_golden_if_missing_eq d original_xpath a). cbv zeta.
  set (gid := generate_golden_identifier d original_xpath None) in *.
  rewrite Hpage, Hid, Hf.
  change (Raise NoSuchElementException ≫= capture_element_attributes)
    with (@Raise Golden NoSuchElementException).
  cbv beta iota. rewrite Hpage.
  change (Some page ≫= (.!! gid)) with (page !! gid). rewrite Hid.
  unfold get_updated_locator. rewrite Hf.
  unfold raise. destruct a; reflexivity.
Qed.

End RoundExtras.

(** ** The agent over a session *)

Section SessionExtras.
Context `{Classifier}.

Lemma init_facts (d : WebDriver) (disk0 : Disk) :
  let a := init d disk0 in
  let key := replace " " "_" (title d) in
  page_key a = key ∧
  is_Some (global_data a !! key) ∧
  golden_file (disk (heap a)) = Some (global_data a) ∧
  (∀ k page, load_global_golden_data disk0 !! k = Some page →
             global_data a !! k = Some page) ∧
  (is_Some (load_global_golden_data disk0 !! key) → disk (heap a) = disk0) ∧
  (load_global_golden_data disk0 !! key = None →
   global_data a !! key = Some ∅ ∧
   writes (disk (heap a)) = writes disk0 ++ [WroteGolden (global_data a)]) ∧
  (training_data (heap a), training_labels (heap a))
  = default ([], []) (training_file disk0) ∧
  model a = model_file disk0.
Proof.
  cbv zeta. unfold init.
  set (key := replace " " "_" (title d)).
  destruct (load_global_golden_data disk0 !! key) as [page|] eqn:Hkey.
  - unfold load_training_data, load_model.
    destruct (default ([], []) (training_file disk0)) as [td tl] eqn:Ht.
    cbn. split; [reflexivity|]. split; [eauto|].
    split.
    { revert Hkey. unfold load_global_golden_data.
      destruct (golden_file disk0); [reflexivity|].
      cbn. rewrite lookup_empty. discriminate. }
    split; [auto|]. split; [reflexivity|]. split; [discriminate|].
    split; reflexivity.
  - unfold load_training_data, load_model, store_global_golden_data_disk.
    cbn [training_file model_file].
    destruct (default ([], []) (training_file disk0)) as [td tl] eqn:Ht.
    cbn. split; [reflexivity|].
    split; [rewrite lookup_insert_eq; eauto|].
    split; [reflexivity|].
    split.
    { intros k page Hk. rewrite lookup_insert_ne; [exact Hk|].
      intros <-. congruence. }
    split; [intros [? [=]]|].
    split; [|split; reflexivity].
    intros _. split; [apply lookup_insert_eq | reflexivity].
Qed.

(** X13. Starting an agent: its page key is the title with spaces
    replaced; its table holds every page and entry of the golden file, and
    a namespace for its own page, created empty and written to the file
    only when the file had none; the file then holds the table; the corpus
    and the model are the ones of the files, the empty corpus and no model
    when a file is missing. *)
Theorem init_outcome (d : WebDriver) (disk0 : Disk) :
  let a := init d disk0 in
  let key := replace " " "_" (title d) in
  page_key a = key ∧
  is_Some (global_data a !! key) ∧
  golden_file (disk (heap a)) = Some (global_data a) ∧
  (∀ k page, load_global_golden_data disk0 !! k = Some page →
             global_data a !! k = Some page) ∧
  (is_Some (load_global_golden_data disk0 !! key) → disk (heap a) = disk0) ∧
  (load_global_golden_data disk0 !! key = None →
   global_data a !! key = Some ∅ ∧
   writes (disk (heap a)) = writes disk0 ++ [WroteGolden (global_data a)]) ∧
  (training_data (heap a), training_labels (heap a))
  = default ([], []) (training_file disk0) ∧
  model a = model_file disk0.
Proof. apply init_facts. Qed.

(** The agent's table has the agent's page, and the golden file holds the
    table. *)
Definition table_ok (a : Agent) : Prop :=
  is_Some (global_data a !! page_key a) ∧
  golden_file (disk (heap a)) = Some (global_data a).

(** Every entry of [a] is an entry of [a'], unchanged. *)
Definition keeps_entries (a a' : Agent) : Prop :=
  page_key a' = page_key a ∧
  ∀ k page id golden,
    global_data a !! k = Some page → page !! id = Some golden →
    global_data a' !! k ≫= (.!! id) = Some golden.

Lemma keeps_entries_refl (a : Agent) : keeps_entries a a.
Proof.
  split; [reflexivity|]. intros k page id golden -> Hid. exact Hid.
Qed.

Lemma keeps_entries_trans (a1 a2 a3 : Agent) :
  keeps_entries a1 a2 → keeps_entries a2 a3 → keeps_entries a1 a3.
Proof.
  intros [Hk H12] [Hk' H23]. split; [congruence|].
  intros k page id golden Hp Hid.
  specialize (H12 k page id golden Hp Hid).
  destruct (global_data a2 !! k) as [page2|] eqn:Hp2; [|discriminate].
  exact (H23 k page2 id golden Hp2 H12).
Qed.

Lemma capture_table (d : WebDriver) (x : string) (a : Agent) :
  table_ok a →
  table_ok (fst (capture_golden_if_missing d x a)) ∧
  keeps_entries a (fst (capture_golden_if_missing d x a)).
Proof.
  intros [[page Hpage] Hfile].
  rewrite capture_golden_if_missing_eq. cbv zeta. rewrite Hpage.
  set (gid := generate_golden_identifier d x None).
  assert (Hsame : table_ok a ∧ keeps_entries a a).
  { split; [split; eauto | apply keeps_entries_refl]. }
  destruct (page !! gid) as [old|] eqn:Hold; [exact Hsame|].
  destruct (find_element d x ≫= capture_element_attributes) as [golden|e];
    [|exact Hsame].
  cbn [fst]. split.
  - split.
    + change (page_key (record_golden gid golden a)) with (page_key a).
      rewrite (record_golden_lookup _ _ _ _ Hpage). eauto.
    + unfold record_golden. rewrite Hpage. reflexivity.
  - split; [reflexivity|].
    intros k page' id golden' Hp Hid.
    destruct (decide (k = page_key a)) as [->|Hne].
    + rewrite (record_golden_lookup _ _ _ _ Hpage).
      rewrite Hpage in Hp. injection Hp as <-. cbn.
      rewrite lookup_insert_ne; [exact Hid|].
      intros E. assert (page !! id = None) by (rewrite <- E; exact Hold).
      congruence.
    + unfold record_golden. cbn [global_data].
      rewrite lookup_insert_ne by congruence. rewrite Hp. exact Hid.
Qed.

Lemma round_golden_file (d : WebDriver) (g : Golden) (m : option Model) (h : Heap) :
  golden_file (disk (fst (self_heal_selector d g m h))) = golden_file (disk h).
Proof.
  rewrite self_heal_selector_heap.
  destruct (choose_candidate_cases d g m h)
    as [-> | (scored & best & _ & _ & _ & [-> | [clf ->]])]; reflexivity.
Qed.

Lemma get_updated_locator_golden_file (d : WebDriver) (x : string)
  (g : option Golden) (m : option Model) (h : Heap) :
  golden_file (disk (fst (get_updated_locator d x g m h))) = golden_file (disk h).
Proof.
  unfold get_updated_locator.
  destruct (find_element d x) as [el|e]; [reflexivity|].
  destruct e; try reflexivity.
  destruct g as [g|]; [|reflexivity].
  pose proof (round_golden_file d g m h) as Hg.
  unfold mbind, Py_bind.
  destruct (self_heal_selector d g m h) as [h' [[[sel ch] m']|e]]; exact Hg.
Qed.

Lemma locate_element_table (d : WebDriver) (x : string) (a : Agent) :
  table_ok a →
  table_ok (fst (locate_element d x a)) ∧
  keeps_entries a (fst (locate_element d x a)).
Proof.
  intros Hok. destruct (capture_table d x a Hok) as [Hok1 Hkeep1].
  rewrite locate_element_eq.
  destruct (capture_golden_if_missing d x a) as [a1 [gid|e]];
    cbn [fst] in Hok1, Hkeep1; [|split; assumption].
  cbv zeta. destruct (find_element d x) as [el|e]; [split; assumption|].
  destruct e; try (split; assumption).
  pose proof (get_updated_locator_golden_file d x
                (global_data a1 !! page_key a1 ≫= (.!! gid)) (model a1) (heap a1))
    as Hg.
  destruct Hok1 as [Hpage1 Hfile1]. destruct Hkeep1 as [Hk1 He1].
  destruct (get_updated_locator d x _ (model a1) (heap a1))
    as [h2 [[[sel ch] m2]|e]]; cbn [fst] in *;
    (split; [split; [exact Hpage1 | cbn; rewrite Hg; exact Hfile1]
            | split; [exact Hk1 | exact He1]]).
Qed.

(** X14. Over a whole session the golden table is kept written
    through and nothing in it is lost: after any sequence of
    [locate_element] calls on an agent started from any files, the agent's
    page key is still the one of the page it was started on, its table
    still has that page, the golden file holds exactly the table, and
    every entry the table had at the start, on any page, is still there
    unchanged. *)
Theorem golden_table_over_session (d0 : WebDriver) (disk0 : Disk)
  (calls : list (WebDriver * string)) :
  let a0 := init d0 disk0 in
  let a := run_session calls a0 in
  page_key a = replace " " "_" (title d0) ∧
  is_Some (global_data a !! page_key a) ∧
  golden_file (disk (heap a)) = Some (global_data a) ∧
  (∀ k page id golden,
     global_data a0 !! k = Some page → page !! id = Some golden →
     global_data a !! k ≫= (.!! id) = Some golden).
Proof.
  cbv zeta.
  destruct (init_facts d0 disk0) as (Hkey & Hpage & Hfile & _).
  cbv zeta in Hkey, Hpage, Hfile.
  assert (Hok0 : table_ok (init d0 disk0)).
  { split; [rewrite Hkey; exact Hpage | exact Hfile]. }
  assert (Hgen : ∀ a, table_ok a →
            table_ok (run_session calls a) ∧ keeps_entries a (run_session calls a)).
  { induction calls as [|[d x] calls IH]; intros a Hok.
    - split; [exact Hok | apply keeps_entries_refl].
    - cbn [run_session].
      destruct (locate_element_table d x a Hok) as [Hok1 Hk1].
      destruct (IH _ Hok1) as [Hok2 Hk2].
      split; [exact Hok2 | exact (keeps_entries_trans _ _ _ Hk1 Hk2)]. }
  destruct (Hgen _ Hok0) as [[Hp Hf] [Hk He]].
  split; [rewrite Hk; exact Hkey|].
  split; [exact Hp|]. split; [exact Hf | exact He].
Qed.

End SessionExtras.

(** ** Restarting, and the score among the features *)

Section RestartExtras.
Context `{Classifier}.

Lemma init_loads (d : WebDriver) (disk0 : Disk) :
  (training_data (heap (init d disk0)), training_labels (heap (init d disk0)))
  = load_training_data disk0 ∧
  model (init d disk0) = load_model disk0.
Proof.
  destruct (init_facts d disk0) as (_ & _ & _ & _ & _ & _ & Hc & Hm).
  split; assumption.
Qed.

(** X15. An agent started on the files a round left: when the round
    brought the corpus to 5 entries or more and [fit] returned a model, the
    new agent holds the whole corpus of the round and that model; when the
    corpus stayed below 5, or [fit] raised, the new agent holds the corpus
    and the model of the files as they were before the round, and the
    round's examples are not there. *)
Theorem restart_after_round (d d' : WebDriver) (g : Golden) (m : option Model)
  (h : Heap) (c : WebElement) (cs : list WebElement) scored :
  get_all_candidates d g = c :: cs →
  score_candidates g (c :: cs) = Ok scored →
  let h' := fst (self_heal_selector d g m h) in
  let a' := init d' (disk h') in
  ((5 ≤ length (training_labels h'))%nat →
     ∀ clf, fit (training_data h') (training_labels h') = Ok clf →
       training_data (heap a') = training_data h' ∧
       training_labels (heap a') = training_labels h' ∧
       model a' = Some clf) ∧
  ((length (training_labels h') < 5)%nat ∨
   (∃ e, fit (training_data h') (training_labels h') = Raise e) →
     (training_data (heap a'), training_labels (heap a'))
     = load_training_data (disk h) ∧
     model a' = load_model (disk h)).
Proof.
  intros Hc Hs. cbv zeta.
  destruct (round_heap d g m h c cs scored Hc Hs)
    as (best & _ & _ & Hheap & Hd & Hl).
  cbv zeta in Hheap.
  set (h1 := extended h (map fst scored) (make_labels best (length (c :: cs)))) in *.
  assert (Hd1 : training_data (fst (self_heal_selector d g m h)) = training_data h1)
    by exact Hd.
  assert (Hl1 : training_labels (fst (self_heal_selector d g m h)) = training_labels h1)
    by exact Hl.
  rewrite Hd1, Hl1, Hheap.
  destruct (init_loads d' (disk (fst (retrained m h1)))) as [Hload Hmodel].
  split.
  - intros Hn clf Hfit.
    rewrite (retrained_enough m h1 clf Hn Hfit) in Hload, Hmodel |- *.
    cbn in Hload, Hmodel. injection Hload as Hd' Hl'.
    split; [exact Hd'|]. split; [exact Hl' | exact Hmodel].
  - intros Hcase.
    assert (Hr : retrained m h1 = (h1, snd (retrained m h1))).
    { destruct (le_lt_dec 5 (length (training_labels h1))) as [Hn|Hn].
      - destruct Hcase as [Hlt | [e Hfit]]; [lia|].
        rewrite (retrained_failed m h1 e Hn Hfit). reflexivity.
      - rewrite (retrained_short m h1 Hn). reflexivity. }
    rewrite Hr in Hload, Hmodel |- *.
    split; [exact Hload | exact Hmodel].
Qed.

End RestartExtras.

(** X16. For a golden without innerHTML (every snapshot of an element
    that is not a [div]) and a candidate that passes the tag gate, the
    seventh feature is determined by the others: 48 times f6 is
    10 f0 + 10 f1 + 8 f2 + 5 f3 + 3 f4 + 2 f7 + 5 f8 + 3 f9, and f5 is 0. *)
Theorem score_from_flags (g : Golden) (c : WebElement) :
  lower (tag_name c) = lower (g_tag g) →
  truthy_opt (g_innerHTML g) = false →
  ∃ f0 f1 f2 f3 f4 f6 f7 f8 f9 : Q,
    extract_features g c = Ok [f0; f1; f2; f3; f4; 0%Q; f6; f7; f8; f9] ∧
    (48 * f6 == 10 * f0 + 10 * f1 + 8 * f2 + 5 * f3 + 3 * f4
                + 2 * f7 + 5 * f8 + 3 * f9)%Q.
Proof.
  intros Htag Hi.
  unfold extract_features, compute_similarity.
  rewrite Htag, String.eqb_refl, Hi. cbn [negb].
  destruct (parent c) as [p|], (g_parent g) as [gp|];
    do 9 eexists; (split; [reflexivity|]); split_ifs; reflexivity.
Qed.

Definition golden_link : Golden :=
  mkGolden "a" (Some "nav-profile") (Some "nav") None None (Some "Profile") None
           (Some (mkGoldenParent "nav" None (Some "menu") None None)).

Definition link_profile : WebElement :=
  mkWebElement "a" {[ "id" := "nav-profile-2"; "class" := "nav" ]} "My Profile"
               (Some (mkWebElement "nav" {[ "class" := "menu" ]} "" None)).

Lemma score_from_flags_witness :
  compute_similarity golden_link link_profile = Ok 36 ∧
  ∃ f0 f1 f2 f3 f4 f6 f7 f8 f9 : Q,
    extract_features golden_link link_profile
    = Ok [f0; f1; f2; f3; f4; 0%Q; f6; f7; f8; f9] ∧
    (48 * f6 == 10 * f0 + 10 * f1 + 8 * f2 + 5 * f3 + 3 * f4
                + 2 * f7 + 5 * f8 + 3 * f9)%Q.
Proof.
  split; [reflexivity|].
  apply (score_from_flags golden_link link_profile); reflexivity.
Defined.

(** Witnesses of the round and agent properties. *)

Lemma no_candidates_raises_witness :
  self_heal_selector (H:=inverse_classifier) page_two_inputs golden_button None
    empty_heap
  = (empty_heap, Raise (Exception "No candidate elements found with tag: button")).
Proof.
  exact (proj1 (no_candidates_raises page_two_inputs golden_button None
                  empty_heap eq_refl)).
Defined.

Lemma healed_result_witness :
  cand_email ∈ find_elements page_two_inputs "input" ∧
  (∃ el, find_element page_two_inputs "//*[@id='email-v2']" = Ok el).
Proof.
  destruct (healed_result (H:=inverse_classifier) page_two_inputs golden_login
              None None empty_heap healed_empty_heap "//*[@id='email-v2']"
              cand_email eq_refl) as (Hin & _ & Hres & _).
  split; [exact Hin | exact Hres].
Defined.

Definition page_button_present : WebDriver :=
  {| title := "Page 1";
     find_element := fun xpath =>
       if String.eqb xpath "//*[@id='go']" then Ok button_go
       else Raise NoSuchElementException;
     find_elements := fun tag =>
       if String.eqb tag "button" then [button_go] else [] |}.

Lemma original_locator_resolves_witness :
  snd (locate_element page_button_present "//*[@id='go']" fresh_agent)
  = Ok button_go ∧
  heap (fst (locate_element page_button_present "//*[@id='go']" fresh_agent))
  = on_disk (store_global_golden_data_disk
               (global_data (fst (locate_element page_button_present
                                    "//*[@id='go']" fresh_agent))))
            (heap fresh_agent).
Proof.
  destruct (original_locator_resolves (H:=inverse_classifier) page_button_present
              "//*[@id='go']" button_go eq_refl) as [_ Hloc].
  rewrite (Hloc fresh_agent); [split; reflexivity|].
  eexists. reflexivity.
Defined.

Lemma unseen_locator_fails_witness :
  locate_element page_two_inputs "//input[@id='email']" fresh_agent
  = (fresh_agent, Raise AttributeError).
Proof.
  apply (unseen_locator_fails page_two_inputs "//input[@id='email']" fresh_agent ∅);
    reflexivity.
Defined.

Lemma restart_after_round_witness :
  training_labels (heap (init page_form (disk healed_prior_heap)))
  = [1; 0; 0; 1; 0] ∧
  model (init page_form (disk healed_prior_heap)) = Some tt ∧
  training_labels (heap (init page_form (disk healed_empty_heap))) = [].
Proof.
  destruct (restart_after_round (H:=inverse_classifier) page_two_inputs page_form
              golden_login None prior_heap cand_email [cand_phone]
              scored_two_inputs eq_refl eq_refl) as [Hyes _].
  destruct (Hyes (le_n 5) tt eq_refl) as (_ & Hl & Hm).
  destruct (restart_after_round (H:=inverse_classifier) page_two_inputs page_form
              golden_login None empty_heap cand_email [cand_phone]
              scored_two_inputs eq_refl eq_refl) as [_ Hno].
  destruct Hno as [Hc _]; [left; apply le_n_S, le_n_S, le_n_S, le_0_n|].
  split; [exact Hl|]. split; [exact Hm|].
  exact (f_equal snd Hc).
Defined.

(** ** The agent's key, and the model over a run *)

Section KeyTheorems.
Context `{Classifier}.

(** C7, amended: for every capture performed by the agent, the golden
    identifier is derived from the normalized page title and the sanitized
    form of the original locator string, whatever the element's
    attributes: that identifier is returned, a snapshot captured by the
    call is stored under it, and the same identifier is computed again on
    any later page with the same title, also one where the element is
    gone. *)
Theorem agent_identifier_from_locator (d : WebDriver) (original_xpath : string)
  (a : Agent) (page : gmap string Golden) :
  global_data a !! page_key a = Some page →
  let golden_id := replace " " "_" (title d) +:+ "_golden_"
                   +:+ sanitize_xpath original_xpath in
  let a1 := fst (capture_golden_if_missing d original_xpath a) in
  snd (capture_golden_if_missing d original_xpath a) = Ok golden_id ∧
  (∀ element golden,
     page !! golden_id = None →
     find_element d original_xpath = Ok element →
     capture_element_attributes element = Ok golden →
     global_data a1 !! page_key a ≫= (.!! golden_id) = Some golden) ∧
  (∀ d', title d' = title d →
         snd (capture_golden_if_missing d' original_xpath a1) = Ok golden_id).
Proof.
  intros Hpage. cbv zeta.
  set (golden_id := replace " " "_" (title d) +:+ "_golden_"
                    +:+ sanitize_xpath original_xpath).
  assert (Hid : generate_golden_identifier d original_xpath None = golden_id)
    by reflexivity.
  rewrite (capture_golden_if_missing_eq d original_xpath a). cbv zeta.
  rewrite Hpage, Hid.
  assert (Hagain : ∀ a2 d', title d' = title d →
            is_Some (global_data a2 !! page_key a2) →
            snd (capture_golden_if_missing d' original_xpath a2) = Ok golden_id).
  { intros a2 d' Ht [page2 Hp2].
    rewrite capture_golden_if_missing_eq. cbv zeta. rewrite Hp2.
    assert (Hid' : generate_golden_identifier d' original_xpath None = golden_id)
      by (unfold generate_golden_identifier, golden_id; rewrite Ht; reflexivity).
    rewrite Hid'. destruct (page2 !! golden_id); [reflexivity|].
    destruct (find_element d' original_xpath ≫= capture_element_attributes);
      reflexivity. }
  destruct (page !! golden_id) as [old|] eqn:Hold.
  { cbn [fst snd]. split; [reflexivity|].
    split; [intros ? ? [=]|]. intros d' Ht. apply Hagain; eauto. }
  destruct (find_element d original_xpath) as [el|e] eqn:Hf.
  - change (Ok el ≫= capture_element_attributes)
      with (capture_element_attributes el).
    destruct (capture_element_attributes el) as [golden|e] eqn:Hcap;
      cbn [fst snd].
    + split; [reflexivity|]. split.
      * intros element golden' _ [= <-] Hg. rewrite Hcap in Hg.
        injection Hg as <-.
        rewrite (record_golden_lookup _ _ _ _ Hpage). cbn.
        apply lookup_insert_eq.
      * intros d' Ht. apply Hagain; [exact Ht|].
        change (page_key (record_golden golden_id golden a)) with (page_key a).
        rewrite (record_golden_lookup _ _ _ _ Hpage). eauto.
    + split; [reflexivity|]. split.
      * intros element golden' _ [= <-] Hg. congruence.
      * intros d' Ht. apply Hagain; eauto.
  - change (Raise e ≫= capture_element_attributes) with (@Raise Golden e).
    cbn [fst snd]. split; [reflexivity|].
    split; [intros ? ? _ [=]|]. intros d' Ht. apply Hagain; eauto.
Qed.

(** A model is held only with a corpus of 5 entries or more. *)
Definition model_has_corpus (m : option Model) (h : Heap) : Prop :=
  is_Some m → (5 ≤ length (training_labels h))%nat.

Lemma round_model_has_corpus (d : WebDriver) (g : Golden) (m : option Model)
  (h : Heap) :
  model_has_corpus m h →
  model_has_corpus m (fst (self_heal_selector d g m h)) ∧
  ∀ h' sel ch m', self_heal_selector d g m h = (h', Ok (sel, ch, m')) →
                  model_has_corpus m' h'.
Proof.
  intros Hinv.
  destruct (round_extends d g m h) as (fs & ls & _ & Hl).
  assert (Hgrow : (length (training_labels h)
                   ≤ length (training_labels (fst (self_heal_selector d g m h))))%nat)
    by (rewrite Hl, length_app; lia).
  split.
  - intros Hm. specialize (Hinv Hm). lia.
  - intros h' sel ch m' Hres Hm'.
    destruct (healed_facts d g m m' h h' sel ch Hres) as (_ & _ & _ & Hiff).
    rewrite Hres in Hgrow. cbn [fst] in Hgrow.
    destruct (proj1 Hiff Hm') as [Hm | Hn]; [|exact Hn].
    specialize (Hinv Hm). lia.
Qed.

Lemma heal_rounds_model_has_corpus (rounds : list (WebDriver * Golden))
  (m : option Model) (h : Heap) :
  model_has_corpus m h →
  model_has_corpus (snd (heal_rounds rounds m h)) (fst (heal_rounds rounds m h)).
Proof.
  revert m h. induction rounds as [|[d g] rounds IH]; intros m h Hinv.
  - exact Hinv.
  - cbn [heal_rounds].
    destruct (round_model_has_corpus d g m h Hinv) as [Hkeep Hnew].
    destruct (self_heal_selector d g m h) as [h' [[[sel ch] m']|e]] eqn:Hres.
    + apply IH. exact (Hnew _ _ _ _ eq_refl).
    + apply IH. exact Hkeep.
Qed.

(** X19. Over the rounds of a run that starts without a model, or with
    a corpus of at least 5 entries, a model is held only once the corpus
    has at least 5 entries; so in every later round that leaves the corpus
    below 5 entries no model is there, and the winner is the candidate at
    the first maximum of the heuristic scores. *)
Theorem heuristic_below_threshold (rounds : list (WebDriver * Golden))
  (m : option Model) (h : Heap) :
  (is_Some m → (5 ≤ length (training_labels h))%nat) →
  let h1 := fst (heal_rounds rounds m h) in
  let m1 := snd (heal_rounds rounds m h) in
  (is_Some m1 → (5 ≤ length (training_labels h1))%nat) ∧
  (∀ d g c cs scored,
     get_all_candidates d g = c :: cs →
     score_candidates g (c :: cs) = Ok scored →
     (length (training_labels (fst (self_heal_selector d g m1 h1))) < 5)%nat →
     m1 = None ∧
     ∃ best chosen,
       first_max Z.le Z.lt (map snd scored) best ∧
       (c :: cs) !! best = Some chosen ∧
       self_heal_selector d g m1 h1
       = (fst (self_heal_selector d g m1 h1),
          new_selector ← verify d chosen; mret (new_selector, chosen, None))).
Proof.
  intros Hinv. cbv zeta.
  pose proof (heal_rounds_model_has_corpus rounds m h Hinv) as Hinv1.
  split; [exact Hinv1|].
  intros d g c cs scored Hc Hs Hshort.
  destruct (ranking_facts d g (snd (heal_rounds rounds m h))
              (fst (heal_rounds rounds m h)) c cs scored Hc Hs)
    as (best & Hmax & _ & Hlen & Hdecide & _).
  cbv zeta in Hlen, Hdecide. specialize (Hdecide Hshort).
  destruct (snd (heal_rounds rounds m h)) as [m0|] eqn:Hm1.
  - exfalso. assert (Hsome : is_Some (Some m0)) by eauto.
    specialize (Hinv1 Hsome). rewrite Hlen in Hshort. lia.
  - split; [reflexivity|].
    destruct Hdecide as (chosen & Hch & Heq). exists best, chosen.
    split; [exact Hmax|]. split; [exact Hch | exact Heq].
Qed.

End KeyTheorems.

Lemma agent_identifier_from_locator_witness :
  snd (capture_golden_if_missing page_form "//input[@id='email']" fresh_agent)
  = Ok "Page_1_golden___inputid='email'" ∧
  snd (capture_golden_if_missing page_two_inputs "//input[@id='email']"
         captured_agent)
  = Ok "Page_1_golden___inputid='email'".
Proof.
  destruct (agent_identifier_from_locator (H:=inverse_classifier) page_form
              "//input[@id='email']" fresh_agent ∅ eq_refl)
    as (Hid & _ & Hagain).
  split; [exact Hid|]. exact (Hagain page_two_inputs eq_refl).
Defined.

Lemma heuristic_below_threshold_witness :
  snd (heal_rounds (H:=inverse_classifier) [(page_stale, golden_button)] None
         empty_heap) = None ∧
  ∃ best chosen,
    first_max Z.le Z.lt [23; 13] best ∧
    [cand_email; cand_phone] !! best = Some chosen.
Proof.
  destruct (heuristic_below_threshold (H:=inverse_classifier)
              [(page_stale, golden_button)] None empty_heap) as [_ Hround].
  - intros [m0 Hm0]. discriminate Hm0.
  - destruct (Hround page_two_inputs golden_login cand_email [cand_phone]
                scored_two_inputs eq_refl eq_refl)
      as (Hnone & best & chosen & Hmax & Hch & _).
    + apply le_S, le_n.
    + split; [exact Hnone|]. exists best, chosen.
      split; [exact Hmax | exact Hch].
Defined.

(** Four rounds on a page with a single button, from empty files. *)
Definition button_round : WebDriver * Golden := (page_button_present, golden_button).

Definition four_rounds_heap : @Heap inverse_classifier :=
  fst (heal_rounds [button_round; button_round; button_round; button_round]
         None empty_heap).

(** C1 on the code: four rounds with one candidate each leave four
    labels, all 1, and no model, each round decided by the heuristic.  In
    the fifth round the corpus reaches 5 entries, all labelled 1: [fit]
    raises, the round raises with it although the page has the candidate
    and resolves its locator, no model is trained, no winner is returned
    and nothing is saved. *)
Lemma single_class_corpus_breaks_round :
  training_labels four_rounds_heap = [1; 1; 1; 1] ∧
  snd (heal_rounds (H:=inverse_classifier)
         [button_round; button_round; button_round; button_round] None empty_heap)
  = None ∧
  find_elements page_button_present (g_tag golden_button) = [button_go] ∧
  find_element page_button_present (generate_selector button_go) = Ok button_go ∧
  training_labels
    (fst (self_heal_selector page_button_present golden_button None four_rounds_heap))
  = [1; 1; 1; 1; 1] ∧
  snd (self_heal_selector page_button_present golden_button None four_rounds_heap)
  = Raise ValueError ∧
  disk (fst (self_heal_selector page_button_present golden_button None
               four_rounds_heap))
  = empty_disk.
Proof. repeat split. Qed.
